(** * Mergington High School activities API (src/app.py)

    A shallow embedding of the three request handlers of [app.py]
    ([get_activities], [signup_for_activity], [unregister_from_activity]) and
    of the module-level seed block, over a model of the two tables the
    handlers query, followed by the properties of the roster they maintain. *)

From Stdlib Require Import List String Ascii ZArith Bool Lia FinFun Permutation.
Import ListNotations.

Local Open Scope string_scope.
Local Open Scope Z_scope.

(** ** Python values used by the handlers *)

Module Py.

(** A [dict] with string keys: insertion ordered; assigning to a key that is
    already present replaces its value and keeps its position. *)
Definition dict (V : Type) : Type := list (string * V).

Fixpoint setitem {V : Type} (d : dict V) (k : string) (v : V) : dict V :=
  match d with
  | [] => [(k, v)]
  | (k', v') :: d' =>
      if String.eqb k' k then (k', v) :: d' else (k', v') :: setitem d' k v
  end.

Fixpoint getitem {V : Type} (d : dict V) (k : string) : option V :=
  match d with
  | [] => None
  | (k', v') :: d' => if String.eqb k' k then Some v' else getitem d' k
  end.

Definition keys {V : Type} (d : dict V) : list string := map fst d.

(** Truth value of an [int] or [None]: [None] and [0] are false. *)
Definition truthy (v : option Z) : bool :=
  match v with
  | None => false
  | Some n => negb (n =? 0)
  end.

End Py.

(** ** The tables *)

Module Db.

(** Modelled from the spec: the [db] module ([SessionLocal], [init_db],
    [Activity], [Signup]) is imported by [app.py] and is not part of the
    sources.  The persisted state is a table of activities (primary key
    [id], [name], [description], [schedule], nullable [max_participants])
    and a table of signups (activity reference, [email]); a signup row is
    identified by its pair. *)
Record Activity : Type := mkActivity {
  id : Z;
  name : string;
  description : string;
  schedule : string;
  max_participants : option Z
}.

(** Modelled from the spec: the [Signup] row of the [db] module, "identity
    = (activity reference, student email) pair". *)
Record Signup : Type := mkSignup {
  activity_id : Z;
  email : string
}.

(** Modelled from the spec: the persisted state behind [SessionLocal], the
    two tables.  Rows are kept in insertion order, the order of their
    primary keys.  A query without [ORDER BY] need not return rows in that
    order: what is stated of rows that a handler reads without an order
    of its own (the participants of a listing) is stated up to order. *)
Record Store : Type := mkStore {
  activities : list Activity;
  signups : list Signup
}.

Definition empty : Store := mkStore [] [].

(** Modelled from the spec: the uniqueness constraints the table
    declarations may carry ("name unique", "unique pair constraint").
    Whether [db] declares them is not visible from [app.py], so every
    definition and theorem below takes the schema as a parameter. *)
Record Schema : Type := mkSchema {
  unique_name : bool;
  unique_pair : bool
}.

Definition same_name (n : string) (a : Activity) : bool :=
  String.eqb (name a) n.

Definition same_activity (aid : Z) (s : Signup) : bool :=
  activity_id s =? aid.

Definition same_pair (aid : Z) (e : string) (s : Signup) : bool :=
  (activity_id s =? aid) && String.eqb (email s) e.

(** The [Query] methods the handlers call on a filtered table; column
    comparisons are exact equality of strings and of integers. *)
Definition first {A : Type} (q : list A) : option A := hd_error q.
Definition count {A : Type} (q : list A) : Z := Z.of_nat (List.length q).
Definition all {A : Type} (q : list A) : list A := q.

(** The [signups] relationship of an activity row: the signup rows that
    reference it.  The relationship is read without [ORDER BY], so the
    order of the rows is the storage's choice; they are listed here as the
    table has them, and the properties of the listing below are of the
    rows up to order. *)
Definition signups_of (db : Store) (a : Activity) : list Signup :=
  filter (same_activity (id a)) (signups db).

(** The key the storage engine gives a new activity row: one more than the
    largest key in the table, 1 in an empty table. *)
Definition next_id (acts : list Activity) : Z :=
  1 + fold_right Z.max 0 (map id acts).

Inductive Exn : Type :=
| HTTPException (status_code : Z) (detail : string)
| IntegrityError.

(** [session.add(Activity(...)); session.flush()]: the row gets its key;
    the insert is refused when the name is taken and names are unique. *)
Definition add_activity (sch : Schema) (db : Store)
    (n d s : string) (m : option Z) : Exn + (Activity * Store) :=
  if unique_name sch && existsb (same_name n) (activities db)
  then inl IntegrityError
  else
    let act := mkActivity (next_id (activities db)) n d s m in
    inr (act, mkStore (activities db ++ [act])%list (signups db)).

(** [session.add(Signup(...))], flushed with the transaction. *)
Definition add_signup (sch : Schema) (db : Store) (row : Signup)
    : Exn + Store :=
  if unique_pair sch
     && existsb (same_pair (activity_id row) (email row)) (signups db)
  then inl IntegrityError
  else inr (mkStore (activities db) (signups db ++ [row])%list).

(** [session.delete(existing)] where [existing] is the first row that
    satisfies [p]: that row, and no other, leaves the table. *)
Fixpoint delete_first (p : Signup -> bool) (rows : list Signup)
    : list Signup :=
  match rows with
  | [] => []
  | s :: rows' => if p s then rows' else s :: delete_first p rows'
  end.

End Db.

Import Db.

(** ** Results of a request *)

Inductive Outcome (A : Type) : Type :=
| Return (v : A)
| Raise (e : Exn).

Arguments Return {A} v.
Arguments Raise {A} e.

(** The error kinds of the service, as the status and detail they carry. *)
Definition NotFound : Exn := HTTPException 404 "Activity not found".
Definition AlreadyRegistered : Exn :=
  HTTPException 400 "Student is already signed up".
Definition CapacityExceeded : Exn := HTTPException 400 "Activity is full".
Definition NotRegistered : Exn :=
  HTTPException 400 "Student is not signed up for this activity".

(** ** Seed data *)

Record SeedEntry : Type := mkSeed {
  seed_name : string;
  seed_description : string;
  seed_schedule : string;
  seed_max_participants : Z;
  seed_participants : list string
}.

Definition INITIAL_ACTIVITIES : list SeedEntry :=
  [ mkSeed "Chess Club"
      "Learn strategies and compete in chess tournaments"
      "Fridays, 3:30 PM - 5:00 PM" 12
      ["michael@mergington.edu"; "daniel@mergington.edu"];
    mkSeed "Programming Class"
      "Learn programming fundamentals and build software projects"
      "Tuesdays and Thursdays, 3:30 PM - 4:30 PM" 20
      ["emma@mergington.edu"; "sophia@mergington.edu"];
    mkSeed "Gym Class"
      "Physical education and sports activities"
      "Mondays, Wednesdays, Fridays, 2:00 PM - 3:00 PM" 30
      ["john@mergington.edu"; "olivia@mergington.edu"];
    mkSeed "Soccer Team"
      "Join the school soccer team and compete in matches"
      "Tuesdays and Thursdays, 4:00 PM - 5:30 PM" 22
      ["liam@mergington.edu"; "noah@mergington.edu"];
    mkSeed "Basketball Team"
      "Practice and play basketball with the school team"
      "Wednesdays and Fridays, 3:30 PM - 5:00 PM" 15
      ["ava@mergington.edu"; "mia@mergington.edu"];
    mkSeed "Art Club"
      "Explore your creativity through painting and drawing"
      "Thursdays, 3:30 PM - 5:00 PM" 15
      ["amelia@mergington.edu"; "harper@mergington.edu"];
    mkSeed "Drama Club"
      "Act, direct, and produce plays and performances"
      "Mondays and Wednesdays, 4:00 PM - 5:30 PM" 20
      ["ella@mergington.edu"; "scarlett@mergington.edu"];
    mkSeed "Math Club"
      "Solve challenging problems and participate in math competitions"
      "Tuesdays, 3:30 PM - 4:30 PM" 10
      ["james@mergington.edu"; "benjamin@mergington.edu"];
    mkSeed "Debate Team"
      "Develop public speaking and argumentation skills"
      "Fridays, 4:00 PM - 5:30 PM" 12
      ["charlotte@mergington.edu"; "henry@mergington.edu"] ].

(** The inner loop of the seed block: one signup row per participant. *)
Fixpoint seed_participants_loop (sch : Schema) (session : Store) (aid : Z)
    (ps : list string) : Exn + Store :=
  match ps with
  | [] => inr session
  | p :: ps' =>
      match add_signup sch session (mkSignup aid p) with
      | inl e => inl e
      | inr session' => seed_participants_loop sch session' aid ps'
      end
  end.

(** The outer loop: the activity row, then its participants. *)
Fixpoint seed_loop (sch : Schema) (session : Store) (entries : list SeedEntry)
    : Exn + Store :=
  match entries with
  | [] => inr session
  | a :: entries' =>
      match add_activity sch session (seed_name a) (seed_description a)
              (seed_schedule a) (Some (seed_max_participants a)) with
      | inl e => inl e
      | inr (act, session') =>
          match seed_participants_loop sch session' (id act)
                  (seed_participants a) with
          | inl e => inl e
          | inr session'' => seed_loop sch session'' entries'
          end
      end
  end.

(** The module-level block: seed when the activities table is empty.  The
    rows reach the store with the single [commit] at the end; an exception
    leaves the [with] block before it, and the store keeps its state. *)
Definition seed (sch : Schema) (db : Store) : Outcome unit * Store :=
  let count := Db.count (activities db) in
  if count =? 0 then
    match seed_loop sch db INITIAL_ACTIVITIES with
    | inl e => (Raise e, db)
    | inr session => (Return tt, session)
    end
  else (Return tt, db).

(** ** The handlers

    A handler maps the committed store and the request's arguments to what
    the request gets back and the store as committed when its session
    closes: a handler that raises has committed nothing. *)

Record ActivityInfo : Type := mkInfo {
  info_description : string;
  info_schedule : string;
  info_max_participants : option Z;
  info_participants : list string
}.

(** The dictionary entry [get_activities] builds for one row. *)
Definition info_of (db : Store) (a : Activity) : ActivityInfo :=
  mkInfo (description a) (schedule a) (max_participants a)
         (map Db.email (signups_of db a)).

(** "Return all activities with current participants (from DB)." *)
Definition get_activities (db : Store)
    : Outcome (Py.dict ActivityInfo) * Store :=
  let acts := Db.all (activities db) in
  let result :=
    fold_left (fun result a => Py.setitem result (name a) (info_of db a))
              acts [] in
  (Return result, db).

(** "Sign up a student for an activity". *)
Definition signup_for_activity (sch : Schema) (db : Store)
    (activity_name email : string) : Outcome string * Store :=
  match Db.first (filter (same_name activity_name) (activities db)) with
  | None => (Raise (HTTPException 404 "Activity not found"), db)
  | Some activity =>
      match Db.first (filter (same_pair (id activity) email) (signups db)) with
      | Some existing =>
          (Raise (HTTPException 400 "Student is already signed up"), db)
      | None =>
          let count :=
            Db.count (filter (same_activity (id activity)) (signups db)) in
          if match max_participants activity with
             | None => false
             | Some m => negb (m =? 0) && (m <=? count)
             end
          then (Raise (HTTPException 400 "Activity is full"), db)
          else
            match add_signup sch db (mkSignup (id activity) email) with
            | inl e => (Raise e, db)
            | inr db' =>
                (Return ("Signed up " ++ email ++ " for " ++ activity_name),
                 db')
            end
      end
  end.

(** "Unregister a student from an activity". *)
Definition unregister_from_activity (db : Store)
    (activity_name email : string) : Outcome string * Store :=
  match Db.first (filter (same_name activity_name) (activities db)) with
  | None => (Raise (HTTPException 404 "Activity not found"), db)
  | Some activity =>
      match Db.first (filter (same_pair (id activity) email) (signups db)) with
      | None =>
          (Raise (HTTPException 400
                    "Student is not signed up for this activity"), db)
      | Some existing =>
          (Return ("Unregistered " ++ email ++ " from " ++ activity_name),
           mkStore (activities db)
                   (delete_first (same_pair (id activity) email)
                                 (signups db)))
      end
  end.

(** ** Sequences of calls *)

Inductive Call : Type :=
| SignupCall (activity_name email : string)
| UnregisterCall (activity_name email : string).

Definition call (sch : Schema) (db : Store) (c : Call)
    : Outcome string * Store :=
  match c with
  | SignupCall n e => signup_for_activity sch db n e
  | UnregisterCall n e => unregister_from_activity db n e
  end.

(** The store after a sequence of calls, and the outcomes in call order. *)
Fixpoint exec (sch : Schema) (db : Store) (cs : list Call)
    : list (Outcome string) * Store :=
  match cs with
  | [] => ([], db)
  | c :: cs' =>
      let '(r, db') := call sch db c in
      let '(rs, db'') := exec sch db' cs' in
      (r :: rs, db'')
  end.

Definition run (sch : Schema) (db : Store) (cs : list Call) : Store :=
  snd (exec sch db cs).

Definition returned {A : Type} (r : Outcome A) : bool :=
  match r with
  | Return _ => true
  | Raise _ => false
  end.

(** ** The service as the specification words it (section 4) *)

Module Spec.

Definition findActivity (db : Store) (n : string) : option Activity :=
  find (same_name n) (activities db).

Definition countSignups (db : Store) (aid : Z) : Z :=
  Z.of_nat (List.length (filter (same_activity aid) (signups db))).

Definition hasSignup (db : Store) (aid : Z) (e : string) : bool :=
  existsb (same_pair aid e) (signups db).

Definition addSignup (db : Store) (aid : Z) (e : string) : Store :=
  mkStore (activities db) (signups db ++ [mkSignup aid e])%list.

Definition removeSignup (db : Store) (aid : Z) (e : string) : Store :=
  mkStore (activities db) (delete_first (same_pair aid e) (signups db)).

(** "max_participants is set and countSignups >= max_participants". *)
Definition atCapacity (db : Store) (a : Activity) : bool :=
  match max_participants a with
  | None => false
  | Some m => Py.truthy (Some m) && (countSignups db (id a) >=? m)
  end.

(** Steps 1 to 4 of [signup], in the order the specification lists them. *)
Definition signup (db : Store) (n e : string) : Outcome string * Store :=
  match findActivity db n with
  | None => (Raise NotFound, db)
  | Some a =>
      if hasSignup db (id a) e then (Raise AlreadyRegistered, db)
      else if atCapacity db a then (Raise CapacityExceeded, db)
      else (Return ("Signed up " ++ e ++ " for " ++ n),
            addSignup db (id a) e)
  end.

(** Steps 1 to 3 of [unregister]. *)
Definition unregister (db : Store) (n e : string)
    : Outcome string * Store :=
  match findActivity db n with
  | None => (Raise NotFound, db)
  | Some a =>
      if hasSignup db (id a) e
      then (Return ("Unregistered " ++ e ++ " from " ++ n),
            removeSignup db (id a) e)
      else (Raise NotRegistered, db)
  end.

End Spec.

(** ** Invariants of the store (section 3) *)

(** Primary key of the activities table. *)
Definition keys_unique (db : Store) : Prop :=
  NoDup (map id (activities db)).

(** "An activity's name is unique across the store." *)
Definition names_unique (db : Store) : Prop :=
  NoDup (map name (activities db)).

(** "A (activity, email) pair appears at most once among signups." *)
Definition pairs_unique (db : Store) : Prop :=
  NoDup (signups db).

(** "A signup references an existing activity." *)
Definition references_ok (db : Store) : Prop :=
  forall s, In s (signups db) ->
    exists a, In a (activities db) /\ id a = activity_id s.

(** "Number of signups for an activity never exceeds its max_participants,
    if one is set": set means a value the handler's test takes as true,
    that is neither [None] nor [0]. *)
Definition within_capacity (db : Store) : Prop :=
  forall a m, In a (activities db) ->
    max_participants a = Some m -> Py.truthy (Some m) = true ->
    Spec.countSignups db (id a) <= m.

(** The store the seed block builds from empty tables: the entries in
    order with keys 1, 2, ..., and one signup row per listed participant. *)
Definition keyed_entries : list (Z * SeedEntry) :=
  combine (map Z.of_nat (seq 1 (List.length INITIAL_ACTIVITIES)))
          INITIAL_ACTIVITIES.

Definition seeded : Store :=
  mkStore
    (map (fun '(k, a) =>
            mkActivity k (seed_name a) (seed_description a) (seed_schedule a)
                       (Some (seed_max_participants a)))
         keyed_entries)
    (flat_map (fun '(k, a) => map (mkSignup k) (seed_participants a))
              keyed_entries).

(** Emails that no row of a table can hold: longer than each of them. *)
Definition longest (rows : list Signup) : nat :=
  fold_right Nat.max 0%nat (map (fun s => String.length (Db.email s)) rows).

Fixpoint filler (k : nat) : string :=
  match k with
  | O => ""
  | S k' => String "x" (filler k')
  end.

Definition fresh_emails (rows : list Signup) (k : nat) : list string :=
  map filler (seq (S (longest rows)) k).

(** ** Stores used as examples *)

Definition strict : Schema := mkSchema true true.
Definition lax : Schema := mkSchema false false.

(** One activity with the given capacity and one student enrolled. *)
Definition tutoring (m : option Z) : Store :=
  mkStore [mkActivity 1 "Tutoring" "Peer tutoring" "Mondays, 3:30 PM" m]
          [mkSignup 1 "ana@mergington.edu"].

(** The dictionary a [GET /activities] request gets back. *)
Definition listed (db : Store) : Py.dict ActivityInfo :=
  match fst (get_activities db) with
  | Return result => result
  | Raise _ => []
  end.

(** The rows of one activity as the table holds them, in primary-key
    order: what the queries of the handlers that filter on [activity_id]
    range over (the count and the duplicate check do not depend on the
    order in which the storage returns them). *)
Definition roster (db : Store) (k : Z) : list Signup :=
  filter (same_activity k) (signups db).

(** The activity name a call carries. *)
Definition target (c : Call) : string :=
  match c with
  | SignupCall n _ => n
  | UnregisterCall n _ => n
  end.

(** Two activities that share a name, as a schema without the unique-name
    constraint admits them. *)
Definition twins : Store :=
  mkStore [mkActivity 1 "Choir" "Morning choir" "Mondays, 8:00 AM" (Some 2);
           mkActivity 2 "Choir" "Evening choir" "Fridays, 6:00 PM" (Some 5)]
          [mkSignup 2 "eve@mergington.edu"].

(** ** Queries and row predicates *)

Lemma first_filter_find {A : Type} (p : A -> bool) (l : list A) :
  Db.first (filter p l) = find p l.
Proof.
  induction l as [|x l IH]; simpl; [reflexivity|].
  destruct (p x); simpl; [reflexivity | exact IH].
Qed.

Lemma find_none_existsb {A : Type} (p : A -> bool) (l : list A) :
  find p l = None <-> existsb p l = false.
Proof.
  induction l as [|x l IH]; simpl; [tauto|].
  destruct (p x); simpl; [split; discriminate | exact IH].
Qed.

Lemma find_some_existsb {A : Type} (p : A -> bool) (l : list A) (x : A) :
  find p l = Some x -> existsb p l = true.
Proof.
  intros H. destruct (existsb p l) eqn:E; [reflexivity|].
  apply find_none_existsb in E. congruence.
Qed.

Lemma same_pair_iff (aid : Z) (e : string) (s : Signup) :
  same_pair aid e s = true <-> s = mkSignup aid e.
Proof.
  unfold same_pair. destruct s as [a m]; simpl.
  rewrite andb_true_iff, Z.eqb_eq, String.eqb_eq.
  split; [intros [-> ->]; reflexivity | intros H; inversion H; auto].
Qed.

Lemma same_name_iff (n : string) (a : Activity) :
  same_name n a = true <-> name a = n.
Proof. unfold same_name. apply String.eqb_eq. Qed.

Lemma hasSignup_In (db : Store) (aid : Z) (e : string) :
  Spec.hasSignup db aid e = true <-> In (mkSignup aid e) (signups db).
Proof.
  unfold Spec.hasSignup. rewrite existsb_exists. split.
  - intros [s [Hin Hp]]. apply same_pair_iff in Hp. subst s. exact Hin.
  - intros Hin. exists (mkSignup aid e). split; [exact Hin|].
    apply same_pair_iff. reflexivity.
Qed.

Lemma hasSignup_not_In (db : Store) (aid : Z) (e : string) :
  Spec.hasSignup db aid e = false <-> ~ In (mkSignup aid e) (signups db).
Proof.
  rewrite <- hasSignup_In. destruct (Spec.hasSignup db aid e); split;
    congruence.
Qed.

Lemma findActivity_In (db : Store) (n : string) (a : Activity) :
  Spec.findActivity db n = Some a -> In a (activities db) /\ name a = n.
Proof.
  unfold Spec.findActivity. intros H. apply find_some in H.
  destruct H as [Hin Hp]. apply same_name_iff in Hp. auto.
Qed.

Lemma findActivity_None (db : Store) (n : string) :
  Spec.findActivity db n = None <->
  (forall a, In a (activities db) -> name a <> n).
Proof.
  unfold Spec.findActivity. split.
  - intros H a Hin Hn. apply (find_none _ _ H) in Hin.
    apply same_name_iff in Hn. congruence.
  - intros H. destruct (find (same_name n) (activities db)) as [a|] eqn:E;
      [|reflexivity].
    apply find_some in E. destruct E as [Hin Hp].
    apply same_name_iff in Hp. elim (H a Hin Hp).
Qed.

(** With unique names, a name resolves to the one row that carries it. *)
Lemma find_unique_name (n : string) (acts : list Activity) (a : Activity) :
  NoDup (map name acts) -> In a acts -> name a = n ->
  find (same_name n) acts = Some a.
Proof.
  induction acts as [|b acts IH]; simpl; [tauto|].
  intros Hnd Hin Hn. inversion Hnd as [|? ? Hnotin Hnd']; subst.
  destruct Hin as [->|Hin].
  - replace (same_name (name a) a) with true; [reflexivity|].
    symmetry. apply same_name_iff. reflexivity.
  - destruct (same_name (name a) b) eqn:E.
    + apply same_name_iff in E. elim Hnotin. rewrite E.
      apply in_map. exact Hin.
    + apply IH; auto.
Qed.

Lemma findActivity_unique (db : Store) (a : Activity) :
  names_unique db -> In a (activities db) ->
  Spec.findActivity db (name a) = Some a.
Proof. intros Hnd Hin. apply find_unique_name; auto. Qed.

Lemma key_determines_row (acts : list Activity) (a b : Activity) :
  NoDup (map id acts) -> In a acts -> In b acts -> id a = id b -> a = b.
Proof.
  induction acts as [|c acts IH]; simpl; [tauto|].
  intros Hnd Ha Hb Hid. inversion Hnd as [|? ? Hnotin Hnd']; subst.
  destruct Ha as [->|Ha], Hb as [->|Hb]; auto.
  - elim Hnotin. rewrite Hid. apply in_map. exact Hb.
  - elim Hnotin. rewrite <- Hid. apply in_map. exact Ha.
Qed.

(** ** Effect of an insert or a delete on the per-activity count *)

Lemma count_after_insert (db : Store) (aid k : Z) (e : string) :
  Spec.countSignups (Spec.addSignup db aid e) k =
  Spec.countSignups db k + (if aid =? k then 1 else 0).
Proof.
  unfold Spec.countSignups, Spec.addSignup; simpl.
  rewrite filter_app, length_app; simpl. unfold same_activity at 2; simpl.
  destruct (aid =? k); simpl; lia.
Qed.

Lemma delete_first_incl (p : Signup -> bool) (rows : list Signup) (s : Signup) :
  In s (delete_first p rows) -> In s rows.
Proof.
  induction rows as [|r rows IH]; simpl; [tauto|].
  destruct (p r); simpl; [auto | intros [->|H]; auto].
Qed.

Lemma delete_first_NoDup (p : Signup -> bool) (rows : list Signup) :
  NoDup rows -> NoDup (delete_first p rows).
Proof.
  induction rows as [|r rows IH]; simpl; intros Hnd; [constructor|].
  inversion Hnd as [|? ? Hnotin Hnd']; subst.
  destruct (p r); [exact Hnd'|].
  constructor; [|auto].
  intros Hin. apply Hnotin. eapply delete_first_incl; eauto.
Qed.

Lemma delete_first_filter_length (p q : Signup -> bool) (rows : list Signup) :
  (List.length (filter q (delete_first p rows))
   <= List.length (filter q rows))%nat.
Proof.
  induction rows as [|r rows IH]; simpl; [lia|].
  destruct (p r); simpl; destruct (q r); simpl; lia.
Qed.

Lemma count_after_delete (db : Store) (aid k : Z) (e : string) :
  Spec.countSignups (Spec.removeSignup db aid e) k <= Spec.countSignups db k.
Proof.
  unfold Spec.countSignups, Spec.removeSignup; simpl.
  apply inj_le. apply delete_first_filter_length.
Qed.

(** Deleting the first matching row undoes an insert of a row that was new. *)
Lemma delete_first_after_insert (p : Signup -> bool) (rows : list Signup)
    (s : Signup) :
  existsb p rows = false -> p s = true ->
  delete_first p (rows ++ [s]) = rows.
Proof.
  induction rows as [|r rows IH]; simpl; intros Hnone Hs.
  - rewrite Hs. reflexivity.
  - apply orb_false_iff in Hnone. destruct Hnone as [Hr Hrest].
    rewrite Hr. f_equal. auto.
Qed.

(** ** The handlers compute the service of the specification *)

Lemma atCapacity_code (db : Store) (a : Activity) :
  match max_participants a with
  | None => false
  | Some m =>
      negb (m =? 0)
      && (m <=? Db.count (filter (same_activity (id a)) (signups db)))
  end = Spec.atCapacity db a.
Proof.
  unfold Spec.atCapacity, Spec.countSignups, Db.count, Py.truthy.
  destruct (max_participants a) as [m|]; [|reflexivity].
  rewrite Z.geb_leb. reflexivity.
Qed.

Lemma atCapacity_true (db : Store) (a : Activity) :
  Spec.atCapacity db a = true <->
  exists m, max_participants a = Some m /\ Py.truthy (Some m) = true
            /\ m <= Spec.countSignups db (id a).
Proof.
  unfold Spec.atCapacity. destruct (max_participants a) as [m|].
  - rewrite andb_true_iff, Z.geb_leb, Z.leb_le. split.
    + intros [Ht Hle]. exists m. auto.
    + intros [m' [Hm [Ht Hle]]]. inversion Hm; subst. auto.
  - split; [discriminate | intros [m [Hm _]]; discriminate].
Qed.

Lemma add_signup_new (sch : Schema) (db : Store) (aid : Z) (e : string) :
  Spec.hasSignup db aid e = false ->
  add_signup sch db (mkSignup aid e) = inr (Spec.addSignup db aid e).
Proof.
  unfold add_signup, Spec.hasSignup; simpl. intros ->.
  rewrite andb_false_r. reflexivity.
Qed.

Lemma signup_unfold (sch : Schema) (db : Store) (n e : string) :
  signup_for_activity sch db n e = Spec.signup db n e.
Proof.
  unfold signup_for_activity, Spec.signup, Spec.findActivity.
  rewrite first_filter_find.
  destruct (find (same_name n) (activities db)) as [a|]; [|reflexivity].
  rewrite first_filter_find, atCapacity_code.
  destruct (Spec.hasSignup db (id a) e) eqn:Hhas.
  - unfold Spec.hasSignup in Hhas.
    destruct (find (same_pair (id a) e) (signups db)) eqn:F; [reflexivity|].
    apply find_none_existsb in F. congruence.
  - pose proof Hhas as F. unfold Spec.hasSignup in F.
    apply find_none_existsb in F. rewrite F.
    destruct (Spec.atCapacity db a); [reflexivity|].
    rewrite (add_signup_new sch db (id a) e Hhas). reflexivity.
Qed.

Lemma unregister_unfold (db : Store) (n e : string) :
  unregister_from_activity db n e = Spec.unregister db n e.
Proof.
  unfold unregister_from_activity, Spec.unregister, Spec.findActivity.
  rewrite first_filter_find.
  destruct (find (same_name n) (activities db)) as [a|]; [|reflexivity].
  rewrite first_filter_find. unfold Spec.hasSignup.
  destruct (find (same_pair (id a) e) (signups db)) eqn:F.
  - rewrite (find_some_existsb _ _ _ F). reflexivity.
  - apply find_none_existsb in F. rewrite F. reflexivity.
Qed.

(** ** What one call does to the store *)

(** The four ways through [signup_for_activity] (duplicate, full, insert,
    unknown name) and the three through [unregister_from_activity]
    (delete, not enrolled, unknown name). *)
Ltac signup_cases db n e :=
  rewrite signup_unfold; unfold Spec.signup;
  let a := fresh "a" in
  destruct (Spec.findActivity db n) as [a|] eqn:Hfind;
  [ destruct (Spec.hasSignup db (id a) e) eqn:Hhas;
    [ | destruct (Spec.atCapacity db a) eqn:Hfull ]
  | ].

Ltac unregister_cases db n e :=
  rewrite unregister_unfold; unfold Spec.unregister;
  let a := fresh "a" in
  destruct (Spec.findActivity db n) as [a|] eqn:Hfind;
  [ destruct (Spec.hasSignup db (id a) e) eqn:Hhas | ].

Section Calls.

Variable sch : Schema.

Lemma call_activities (db : Store) (c : Call) :
  activities (snd (call sch db c)) = activities db.
Proof.
  destruct c as [n e|n e]; simpl.
  - signup_cases db n e; reflexivity.
  - unregister_cases db n e; reflexivity.
Qed.

Lemma run_cons (db : Store) (c : Call) (cs : list Call) :
  run sch db (c :: cs) = run sch (snd (call sch db c)) cs.
Proof.
  unfold run; simpl. destruct (call sch db c) as [r db']; simpl.
  destruct (exec sch db' cs); reflexivity.
Qed.

Lemma run_activities (cs : list Call) (db : Store) :
  activities (run sch db cs) = activities db.
Proof.
  revert db. induction cs as [|c cs IH]; intros db; [reflexivity|].
  rewrite run_cons, IH. apply call_activities.
Qed.

(** An invariant of single calls is an invariant of sequences. *)
Lemma run_invariant (P : Store -> Prop) :
  (forall db c, P db -> P (snd (call sch db c))) ->
  forall cs db, P db -> P (run sch db cs).
Proof.
  intros Hstep cs. induction cs as [|c cs IH]; intros db HP; [exact HP|].
  rewrite run_cons. apply IH, Hstep, HP.
Qed.

Lemma call_pairs_unique (db : Store) (c : Call) :
  pairs_unique db -> pairs_unique (snd (call sch db c)).
Proof.
  unfold pairs_unique. intros Hnd. destruct c as [n e|n e]; simpl.
  - signup_cases db n e; try exact Hnd. simpl.
    apply hasSignup_not_In in Hhas.
    apply NoDup_app; [exact Hnd | repeat constructor; simpl; tauto |].
    intros s Hs [<-|[]]. exact (Hhas Hs).
  - unregister_cases db n e; try exact Hnd. simpl.
    apply delete_first_NoDup, Hnd.
Qed.

Lemma call_within_capacity (db : Store) (c : Call) :
  keys_unique db /\ within_capacity db ->
  keys_unique (snd (call sch db c)) /\ within_capacity (snd (call sch db c)).
Proof.
  intros [Hk Hc]. split.
  { unfold keys_unique. rewrite call_activities. exact Hk. }
  unfold within_capacity. rewrite call_activities.
  intros b m Hb Hm Ht. specialize (Hc b m Hb Hm Ht).
  destruct c as [n e|n e]; simpl.
  - signup_cases db n e; try exact Hc. simpl.
    rewrite count_after_insert.
    destruct (id a =? id b) eqn:Hid; [|lia].
    apply Z.eqb_eq in Hid. apply findActivity_In in Hfind.
    destruct Hfind as [Ha _].
    assert (a = b) by (eapply key_determines_row; eauto). subst b.
    unfold Spec.atCapacity in Hfull. rewrite Hm, Ht in Hfull. simpl in Hfull.
    rewrite Z.geb_leb in Hfull. apply Z.leb_gt in Hfull. lia.
  - unregister_cases db n e; try exact Hc. simpl.
    pose proof (count_after_delete db (id a) (id b) e). lia.
Qed.

Lemma exec_cons (db : Store) (c : Call) (cs : list Call) :
  fst (exec sch db (c :: cs)) =
  fst (call sch db c) :: fst (exec sch (snd (call sch db c)) cs).
Proof.
  simpl. destruct (call sch db c) as [r db']; simpl.
  destruct (exec sch db' cs); reflexivity.
Qed.

End Calls.

(** ** The dictionary built by [get_activities] *)

Lemma setitem_new {V : Type} (d : Py.dict V) (k : string) (v : V) :
  ~ In k (Py.keys d) -> Py.setitem d k v = (d ++ [(k, v)])%list.
Proof.
  induction d as [|[k' v'] d IH]; simpl; intros Hnew; [reflexivity|].
  destruct (String.eqb k' k) eqn:E.
  - apply String.eqb_eq in E. tauto.
  - rewrite IH; [reflexivity | tauto].
Qed.

Lemma listing_fold {V : Type} (f : Activity -> V) (acts : list Activity) :
  forall acc : Py.dict V,
    NoDup (Py.keys acc ++ map name acts) ->
    fold_left (fun result a => Py.setitem result (name a) (f a)) acts acc =
    (acc ++ map (fun a => (name a, f a)) acts)%list.
Proof.
  induction acts as [|a acts IH]; simpl; intros acc Hnd.
  - rewrite app_nil_r. reflexivity.
  - pose proof (NoDup_remove_2 _ _ _ Hnd) as Hnew.
    rewrite setitem_new by (intros H; apply Hnew, in_or_app; auto).
    rewrite IH.
    + rewrite <- app_assoc. reflexivity.
    + unfold Py.keys in *. rewrite map_app, <- app_assoc. exact Hnd.
Qed.

Lemma getitem_listing {V : Type} (f : Activity -> V) (acts : list Activity)
    (a : Activity) :
  NoDup (map name acts) -> In a acts ->
  Py.getitem (map (fun a => (name a, f a)) acts) (name a) = Some (f a).
Proof.
  induction acts as [|b acts IH]; simpl; [tauto|].
  intros Hnd Hin. inversion Hnd as [|? ? Hnotin Hnd']; subst.
  destruct Hin as [->|Hin].
  - rewrite String.eqb_refl. reflexivity.
  - destruct (String.eqb (name b) (name a)) eqn:E; [|auto].
    apply String.eqb_eq in E. elim Hnotin. rewrite E.
    apply in_map. exact Hin.
Qed.

(** ** The seed block *)

Lemma seed_participants_loop_activities (sch : Schema) (aid : Z)
    (ps : list string) :
  forall s s', seed_participants_loop sch s aid ps = inr s' ->
    activities s' = activities s.
Proof.
  induction ps as [|p ps IH]; simpl; intros s s' H.
  - inversion H. reflexivity.
  - unfold add_signup in H.
    destruct (unique_pair sch && _); [discriminate|].
    apply IH in H. exact H.
Qed.

Lemma seed_loop_length (sch : Schema) (entries : list SeedEntry) :
  forall s s', seed_loop sch s entries = inr s' ->
    List.length (activities s') =
    (List.length (activities s) + List.length entries)%nat.
Proof.
  induction entries as [|a entries IH]; simpl; intros s s' H.
  - inversion H. lia.
  - unfold add_activity in H.
    destruct (unique_name sch && _); [discriminate|].
    destruct (seed_participants_loop _ _ _ _) as [e|s1] eqn:E1;
      [discriminate|].
    apply seed_participants_loop_activities in E1. simpl in E1.
    apply IH in H. rewrite H, E1, length_app. simpl. lia.
Qed.

Lemma seed_nonempty (sch : Schema) (db : Store) :
  activities db <> [] -> seed sch db = (Return tt, db).
Proof.
  unfold seed, Db.count. destruct (activities db) as [|a acts]; [tauto|].
  intros _. simpl List.length.
  replace (Z.of_nat (S (List.length acts)) =? 0) with false; [reflexivity|].
  symmetry. apply Z.eqb_neq. lia.
Qed.

Lemma seed_empty (sch : Schema) : seed sch Db.empty = (Return tt, seeded).
Proof. destruct sch as [[|] [|]]; vm_compute; reflexivity. Qed.

Lemma empty_by_reference (db : Store) :
  activities db = [] -> references_ok db -> db = Db.empty.
Proof.
  destruct db as [acts rows]; simpl. intros -> Href.
  destruct rows as [|s rows]; [reflexivity|].
  destruct (Href s (or_introl eq_refl)) as [a [[] _]].
Qed.

(** ** Emails that are new to a table *)

Lemma filler_length (k : nat) : String.length (filler k) = k.
Proof. induction k as [|k IH]; simpl; [reflexivity | rewrite IH; reflexivity]. Qed.

Lemma filler_injective : Injective filler.
Proof.
  intros a b H. rewrite <- (filler_length a), <- (filler_length b), H.
  reflexivity.
Qed.

Lemma longest_bound (rows : list Signup) (s : Signup) :
  In s rows -> (String.length (Db.email s) <= longest rows)%nat.
Proof.
  unfold longest. induction rows as [|r rows IH]; simpl; [tauto|].
  intros [->|Hin]; [lia | specialize (IH Hin); lia].
Qed.

Lemma fresh_emails_length (rows : list Signup) (k : nat) :
  List.length (fresh_emails rows k) = k.
Proof. unfold fresh_emails. rewrite length_map, length_seq. reflexivity. Qed.

Lemma fresh_emails_NoDup (rows : list Signup) (k : nat) :
  NoDup (fresh_emails rows k).
Proof.
  unfold fresh_emails. apply Injective_map_NoDup;
    [exact filler_injective | apply seq_NoDup].
Qed.

Lemma fresh_emails_new (rows : list Signup) (k : nat) (aid : Z) (e : string) :
  In e (fresh_emails rows k) -> ~ In (mkSignup aid e) rows.
Proof.
  unfold fresh_emails. intros Hin Hrow. apply in_map_iff in Hin.
  destruct Hin as [j [<- Hj]]. apply in_seq in Hj.
  apply longest_bound in Hrow. simpl in Hrow.
  rewrite filler_length in Hrow. lia.
Qed.

(** ** Signups for an activity without a capacity in force *)

Lemma atCapacity_unset (db : Store) (a : Activity) :
  Py.truthy (max_participants a) = false -> Spec.atCapacity db a = false.
Proof.
  unfold Spec.atCapacity. destruct (max_participants a) as [m|];
    [intros ->; reflexivity | reflexivity].
Qed.

Lemma open_signups (sch : Schema) (n : string) (a : Activity)
    (emails : list string) :
  forall db,
    Spec.findActivity db n = Some a ->
    Py.truthy (max_participants a) = false ->
    NoDup emails ->
    (forall e, In e emails -> ~ In (mkSignup (id a) e) (signups db)) ->
    forallb returned (fst (exec sch db (map (SignupCall n) emails))) = true
    /\ Spec.countSignups (run sch db (map (SignupCall n) emails)) (id a) =
       Spec.countSignups db (id a) + Z.of_nat (List.length emails).
Proof.
  induction emails as [|e emails IH]; intros db Hfind Hunset Hnd Hnew.
  - simpl. unfold run; simpl. split; [reflexivity | lia].
  - cbn [map]. rewrite exec_cons, run_cons. cbn [call].
    rewrite signup_unfold. unfold Spec.signup. rewrite Hfind.
    assert (Hhas : Spec.hasSignup db (id a) e = false)
      by (apply hasSignup_not_In, Hnew; left; reflexivity).
    rewrite Hhas, (atCapacity_unset db a Hunset). cbn [fst snd].
    inversion Hnd as [|? ? Hnotin Hnd']; subst.
    destruct (IH (Spec.addSignup db (id a) e)) as [Hall Hcount]; auto.
    { intros e' He' Hrow. simpl in Hrow. apply in_app_or in Hrow.
      destruct Hrow as [Hrow|[Heq|[]]].
      - apply (Hnew e'); [right; exact He' | exact Hrow].
      - inversion Heq; subst. tauto. }
    split.
    + cbn [forallb returned]. exact Hall.
    + rewrite Hcount, count_after_insert, Z.eqb_refl.
      cbn [List.length]. lia.
Qed.

(** * Properties of the roster *)

(** ** Capacity *)

(** C1. For every activity [a] whose [max_participants] is set to [m] (a
    value the capacity test of [signup_for_activity] takes as true), and for
    every sequence of signup and unregister calls that starts from a store
    with distinct activity keys in which no capacity in force is exceeded,
    the number of signups for [a] after the sequence is at most [m]. *)
Theorem capacity_never_exceeded (sch : Schema) (db : Store) (cs : list Call)
    (a : Activity) (m : Z) :
  keys_unique db ->
  within_capacity db ->
  In a (activities db) ->
  max_participants a = Some m ->
  Py.truthy (Some m) = true ->
  Spec.countSignups (run sch db cs) (id a) <= m.
Proof.
  intros Hk Hc Ha Hm Ht.
  assert (Hinv : keys_unique (run sch db cs) /\ within_capacity (run sch db cs)).
  { apply (run_invariant sch (fun s => keys_unique s /\ within_capacity s)).
    - intros s c. apply call_within_capacity.
    - split; assumption. }
  destruct Hinv as [_ Hfinal]. apply Hfinal; auto.
  rewrite run_activities. exact Ha.
Qed.

Lemma capacity_never_exceeded_witness :
  Spec.countSignups
    (run strict (tutoring (Some 1))
       [SignupCall "Tutoring" "bob@mergington.edu";
        UnregisterCall "Tutoring" "ana@mergington.edu";
        SignupCall "Tutoring" "bob@mergington.edu";
        SignupCall "Tutoring" "carl@mergington.edu"]) 1 <= 1.
Proof.
  apply (capacity_never_exceeded strict (tutoring (Some 1)) _
           (mkActivity 1 "Tutoring" "Peer tutoring" "Mondays, 3:30 PM"
                       (Some 1)) 1).
  - unfold keys_unique; simpl. repeat constructor. simpl. tauto.
  - intros a m [<-|[]] Hm _. inversion Hm. vm_compute. discriminate.
  - simpl. left. reflexivity.
  - reflexivity.
  - reflexivity.
Defined.

(** ** Duplicate signups *)

(** C2. When the name resolves to an activity and the store already holds
    the signup row of that activity and the email, [signup_for_activity]
    raises the 400 "Student is already signed up" and the store is the one
    it was given; in particular a signup that succeeded, when repeated, is
    refused this way.  If no pair occurs twice among the signups, then none
    does after any sequence of calls. *)
Theorem one_signup_per_pair (sch : Schema) (db : Store) :
  (forall n e a,
      Spec.findActivity db n = Some a ->
      In (mkSignup (id a) e) (signups db) ->
      signup_for_activity sch db n e =
      (Raise (HTTPException 400 "Student is already signed up"), db))
  /\ (forall n e msg db',
         signup_for_activity sch db n e = (Return msg, db') ->
         signup_for_activity sch db' n e =
         (Raise (HTTPException 400 "Student is already signed up"), db'))
  /\ (pairs_unique db -> forall cs, pairs_unique (run sch db cs)).
Proof.
  assert (Hdup : forall s n e a,
             Spec.findActivity s n = Some a ->
             In (mkSignup (id a) e) (signups s) ->
             signup_for_activity sch s n e = (Raise AlreadyRegistered, s)).
  { intros s n e a Hfind Hin. rewrite signup_unfold. unfold Spec.signup.
    rewrite Hfind. apply hasSignup_In in Hin. rewrite Hin. reflexivity. }
  split; [apply Hdup | split].
  - intros n e msg db' Hok. rewrite signup_unfold in Hok.
    unfold Spec.signup in Hok.
    destruct (Spec.findActivity db n) as [a|] eqn:Hfind; [|discriminate].
    destruct (Spec.hasSignup db (id a) e); [discriminate|].
    destruct (Spec.atCapacity db a); [discriminate|].
    inversion Hok; subst. apply (Hdup _ n e a); [exact Hfind|].
    simpl. apply in_or_app. right. left. reflexivity.
  - intros Hnd cs. apply (run_invariant sch pairs_unique); [|exact Hnd].
    intros s c. apply call_pairs_unique.
Qed.

Lemma one_signup_per_pair_witness :
  signup_for_activity strict seeded "Chess Club" "michael@mergington.edu" =
  (Raise AlreadyRegistered, seeded)
  /\ pairs_unique
       (run strict seeded
          [SignupCall "Chess Club" "x@y.edu";
           SignupCall "Chess Club" "x@y.edu";
           UnregisterCall "Chess Club" "x@y.edu"]).
Proof.
  destruct (one_signup_per_pair strict seeded) as [Hdup [_ Hinv]]. split.
  - apply (Hdup "Chess Club" "michael@mergington.edu"
             (mkActivity 1 "Chess Club"
                "Learn strategies and compete in chess tournaments"
                "Fridays, 3:30 PM - 5:00 PM" (Some 12))).
    + reflexivity.
    + simpl. left. reflexivity.
  - apply Hinv. unfold pairs_unique. simpl.
    repeat (constructor;
            [simpl; intros H;
             repeat (destruct H as [H|H]; [discriminate H|]); exact H|]).
    constructor.
Defined.

(** ** Order of the checks *)

(** C3. [signup_for_activity] is the decision list of the specification:
    resolve the activity (404 "Activity not found"), then the duplicate
    check (400 "Student is already signed up"), then the capacity check
    (400 "Activity is full"), then the insert.  An unresolved name gives
    NotFound whatever the signups table holds; a duplicate gives
    AlreadyRegistered also when the activity is at capacity; the capacity
    check decides only for an email that is not enrolled. *)
Theorem signup_check_order (sch : Schema) (db : Store) (n e : string) :
  signup_for_activity sch db n e = Spec.signup db n e
  /\ (Spec.findActivity db n = None ->
      signup_for_activity sch db n e = (Raise NotFound, db))
  /\ (forall a, Spec.findActivity db n = Some a ->
        Spec.hasSignup db (id a) e = true ->
        signup_for_activity sch db n e = (Raise AlreadyRegistered, db))
  /\ (forall a, Spec.findActivity db n = Some a ->
        Spec.hasSignup db (id a) e = false ->
        Spec.atCapacity db a = true ->
        signup_for_activity sch db n e = (Raise CapacityExceeded, db))
  /\ (forall a, Spec.findActivity db n = Some a ->
        Spec.hasSignup db (id a) e = false ->
        Spec.atCapacity db a = false ->
        signup_for_activity sch db n e =
        (Return ("Signed up " ++ e ++ " for " ++ n),
         mkStore (activities db) (signups db ++ [mkSignup (id a) e])%list)).
Proof.
  rewrite signup_unfold. unfold Spec.signup.
  split; [reflexivity|].
  split; [intros ->; reflexivity|].
  split; [intros a -> ->; reflexivity|].
  split; [intros a -> -> ->; reflexivity|].
  intros a -> -> ->; reflexivity.
Qed.

Lemma signup_check_order_witness :
  Spec.atCapacity (tutoring (Some 1))
    (mkActivity 1 "Tutoring" "Peer tutoring" "Mondays, 3:30 PM" (Some 1))
  = true
  /\ signup_for_activity strict (tutoring (Some 1)) "Tutoring"
       "ana@mergington.edu"
     = (Raise AlreadyRegistered, tutoring (Some 1)).
Proof.
  split; [reflexivity|].
  apply (proj1 (proj2 (proj2
           (signup_check_order strict (tutoring (Some 1)) "Tutoring"
              "ana@mergington.edu")))
           (mkActivity 1 "Tutoring" "Peer tutoring" "Mondays, 3:30 PM"
                       (Some 1))).
  - reflexivity.
  - reflexivity.
Defined.

(** C4. For an activity whose [max_participants] is set to [m] and that
    already has [m] signups or more, a signup of an email that is not
    enrolled raises the 400 "Activity is full" and the store is the one it
    was given; with [m = 1] and one signup, the store still counts one. *)
Theorem full_activity_rejects (sch : Schema) (db : Store) (n e : string)
    (a : Activity) (m : Z) :
  Spec.findActivity db n = Some a ->
  max_participants a = Some m ->
  Py.truthy (Some m) = true ->
  m <= Spec.countSignups db (id a) ->
  ~ In (mkSignup (id a) e) (signups db) ->
  signup_for_activity sch db n e =
  (Raise (HTTPException 400 "Activity is full"), db)
  /\ (m = 1 -> Spec.countSignups db (id a) = 1 ->
      Spec.countSignups (snd (signup_for_activity sch db n e)) (id a) = 1).
Proof.
  intros Hfind Hm Ht Hle Hnew.
  assert (Hres : signup_for_activity sch db n e =
                 (Raise CapacityExceeded, db)).
  { rewrite signup_unfold. unfold Spec.signup. rewrite Hfind.
    apply hasSignup_not_In in Hnew. rewrite Hnew.
    replace (Spec.atCapacity db a) with true; [reflexivity|].
    symmetry. apply atCapacity_true. exists m. auto. }
  split; [exact Hres|].
  intros _ Hone. rewrite Hres. exact Hone.
Qed.

Lemma full_activity_rejects_witness :
  signup_for_activity strict (tutoring (Some 1)) "Tutoring"
    "bob@mergington.edu"
  = (Raise CapacityExceeded, tutoring (Some 1))
  /\ Spec.countSignups
       (snd (signup_for_activity strict (tutoring (Some 1)) "Tutoring"
               "bob@mergington.edu")) 1 = 1.
Proof.
  destruct (full_activity_rejects strict (tutoring (Some 1)) "Tutoring"
              "bob@mergington.edu"
              (mkActivity 1 "Tutoring" "Peer tutoring" "Mondays, 3:30 PM"
                          (Some 1)) 1) as [Hres Hone].
  - reflexivity.
  - reflexivity.
  - reflexivity.
  - vm_compute. discriminate.
  - simpl. intros [H|[]]. discriminate H.
  - split; [exact Hres | apply Hone; reflexivity].
Defined.

(** ** Unregister *)

(** C5. When [signup_for_activity] succeeds for a name and an email, the
    [unregister_from_activity] call that follows for the same name and email
    succeeds and gives back the store the signup started from, so every
    activity has its prior signup count. *)
Theorem signup_then_unregister (sch : Schema) (db db' : Store)
    (n e msg : string) :
  signup_for_activity sch db n e = (Return msg, db') ->
  unregister_from_activity db' n e =
  (Return ("Unregistered " ++ e ++ " from " ++ n), db)
  /\ forall k,
       Spec.countSignups (snd (unregister_from_activity db' n e)) k =
       Spec.countSignups db k.
Proof.
  intros Hok. rewrite signup_unfold in Hok. unfold Spec.signup in Hok.
  destruct (Spec.findActivity db n) as [a|] eqn:Hfind; [|discriminate].
  destruct (Spec.hasSignup db (id a) e) eqn:Hhas; [discriminate|].
  destruct (Spec.atCapacity db a); [discriminate|].
  inversion Hok; subst; clear Hok.
  assert (Hback : unregister_from_activity (Spec.addSignup db (id a) e) n e =
                  (Return ("Unregistered " ++ e ++ " from " ++ n), db)).
  { rewrite unregister_unfold. unfold Spec.unregister.
    change (Spec.findActivity (Spec.addSignup db (id a) e) n)
      with (Spec.findActivity db n).
    rewrite Hfind.
    replace (Spec.hasSignup (Spec.addSignup db (id a) e) (id a) e) with true.
    - unfold Spec.removeSignup; simpl.
      rewrite delete_first_after_insert.
      + destruct db; reflexivity.
      + exact Hhas.
      + apply same_pair_iff. reflexivity.
    - symmetry. apply hasSignup_In. simpl. apply in_or_app.
      right. left. reflexivity. }
  split; [exact Hback|]. intros k. rewrite Hback. reflexivity.
Qed.

Lemma signup_then_unregister_witness :
  unregister_from_activity
    (snd (signup_for_activity strict seeded "Chess Club" "x@y.edu"))
    "Chess Club" "x@y.edu"
  = (Return "Unregistered x@y.edu from Chess Club", seeded).
Proof.
  apply (signup_then_unregister strict seeded _ "Chess Club" "x@y.edu"
           "Signed up x@y.edu for Chess Club").
  reflexivity.
Defined.

(** C6. For a name that resolves to an activity and an email without a
    signup row for it, [unregister_from_activity] raises the 400 "Student is
    not signed up for this activity" and the store after the call is the
    store before. *)
Theorem unregister_absent (db : Store) (n e : string) (a : Activity) :
  Spec.findActivity db n = Some a ->
  ~ In (mkSignup (id a) e) (signups db) ->
  unregister_from_activity db n e =
  (Raise (HTTPException 400 "Student is not signed up for this activity"),
   db).
Proof.
  intros Hfind Hnew. rewrite unregister_unfold. unfold Spec.unregister.
  rewrite Hfind. apply hasSignup_not_In in Hnew. rewrite Hnew. reflexivity.
Qed.

Lemma unregister_absent_witness :
  unregister_from_activity (tutoring (Some 1)) "Tutoring"
    "bob@mergington.edu"
  = (Raise NotRegistered, tutoring (Some 1)).
Proof.
  apply (unregister_absent (tutoring (Some 1)) "Tutoring"
           "bob@mergington.edu"
           (mkActivity 1 "Tutoring" "Peer tutoring" "Mondays, 3:30 PM"
                       (Some 1))).
  - reflexivity.
  - simpl. intros [H|[]]. discriminate H.
Defined.

(** ** Unknown activities *)

(** C7. For a name that no activity of the store carries, and for every
    email, both [signup_for_activity] and [unregister_from_activity] raise
    the 404 "Activity not found" and leave the store as it was. *)
Theorem unknown_activity (sch : Schema) (db : Store) (n : string) :
  (forall a, In a (activities db) -> name a <> n) ->
  forall e,
    signup_for_activity sch db n e =
    (Raise (HTTPException 404 "Activity not found"), db)
    /\ unregister_from_activity db n e =
       (Raise (HTTPException 404 "Activity not found"), db).
Proof.
  intros Hnone e. apply findActivity_None in Hnone.
  rewrite signup_unfold, unregister_unfold.
  unfold Spec.signup, Spec.unregister. rewrite Hnone. split; reflexivity.
Qed.

Lemma unknown_activity_witness :
  signup_for_activity strict (tutoring (Some 1)) "Fencing"
    "ana@mergington.edu"
  = (Raise NotFound, tutoring (Some 1))
  /\ unregister_from_activity (tutoring (Some 1)) "Fencing"
       "ana@mergington.edu"
     = (Raise NotFound, tutoring (Some 1)).
Proof.
  apply (unknown_activity strict (tutoring (Some 1)) "Fencing").
  simpl. intros a [<-|[]]. simpl. discriminate.
Defined.

(** ** Seeding *)

Lemma seed_cases (sch : Schema) (db : Store) :
  (exists e, seed sch db = (Raise e, db))
  \/ (exists s, seed sch db = (Return tt, s) /\ activities s <> []).
Proof.
  destruct (activities db) as [|a acts] eqn:Hacts.
  - unfold seed, Db.count. rewrite Hacts. cbn [List.length Z.of_nat Z.eqb].
    destruct (seed_loop sch db INITIAL_ACTIVITIES) as [e|s] eqn:Hloop.
    + left. exists e. reflexivity.
    + right. exists s. split; [reflexivity|].
      apply seed_loop_length in Hloop. rewrite Hacts in Hloop.
      simpl in Hloop. intros Hnil. rewrite Hnil in Hloop. discriminate.
  - right. exists db. split.
    + apply seed_nonempty. rewrite Hacts. discriminate.
    + rewrite Hacts. discriminate.
Qed.

(** C9. The seed list has 9 entries.  Run on a store without activities
    (and so, every signup referencing an activity, without signups), the seed
    block returns and leaves the store holding the 9 activities, whose
    listing shows under each entry's name its description, schedule and
    capacity and, in some order, its initial participants; run on a store
    that holds an activity it returns and
    leaves the store as it was; when it raises, the store is as it was (all
    rows or none); running it twice gives what running it once gives. *)
Theorem seed_guarded_idempotent (sch : Schema) :
  List.length INITIAL_ACTIVITIES = 9%nat
  /\ (forall db, activities db = [] -> references_ok db ->
        seed sch db = (Return tt, seeded))
  /\ (forall a, In a INITIAL_ACTIVITIES ->
        exists info,
          Py.getitem (listed seeded) (seed_name a) = Some info
          /\ info_description info = seed_description a
          /\ info_schedule info = seed_schedule a
          /\ info_max_participants info = Some (seed_max_participants a)
          /\ Permutation (info_participants info) (seed_participants a))
  /\ (forall db, activities db <> [] -> seed sch db = (Return tt, db))
  /\ (forall db, returned (fst (seed sch db)) = false ->
        snd (seed sch db) = db)
  /\ (forall db, seed sch (snd (seed sch db)) = seed sch db).
Proof.
  split; [reflexivity|].
  split.
  { intros db Hnil Href. rewrite (empty_by_reference db Hnil Href).
    apply seed_empty. }
  split.
  { intros a Ha. unfold INITIAL_ACTIVITIES in Ha. simpl in Ha.
    repeat (destruct Ha as [<-|Ha];
            [eexists; split; [reflexivity|];
             repeat split; apply Permutation_refl|]).
    contradiction. }
  split; [intros db; apply seed_nonempty|].
  split; intros db; destruct (seed_cases sch db) as [[e He]|[s [Hs Hne]]].
  - rewrite He. reflexivity.
  - rewrite Hs. discriminate.
  - rewrite He. simpl. exact He.
  - rewrite Hs. simpl. apply seed_nonempty. exact Hne.
Qed.

Lemma seed_guarded_idempotent_witness :
  seed lax Db.empty = (Return tt, seeded)
  /\ seed lax seeded = (Return tt, seeded).
Proof.
  destruct (seed_guarded_idempotent lax) as [_ [Hfill [_ [Hkeep _]]]].
  split.
  - apply Hfill; [reflexivity | intros s []].
  - apply Hkeep. simpl. discriminate.
Defined.

(** ** When the capacity check fires *)

(** C10, as stated: the signup raises CapacityExceeded exactly when the
    activity's [max_participants] is true as a condition and the signup
    count has reached it.  It fails for a student who is already enrolled in
    a full activity: the duplicate check answers first. *)
Lemma capacity_exceeded_iff_counterexample :
  ~ (fst (signup_for_activity strict (tutoring (Some 1)) "Tutoring"
            "ana@mergington.edu")
     = Raise (HTTPException 400 "Activity is full")
     <-> Py.truthy (Some 1) = true
         /\ 1 <= Spec.countSignups (tutoring (Some 1)) 1).
Proof.
  intros [_ H].
  assert (Hfull : Py.truthy (Some 1) = true
                  /\ 1 <= Spec.countSignups (tutoring (Some 1)) 1)
    by (split; [reflexivity | vm_compute; discriminate]).
  specialize (H Hfull). vm_compute in H. discriminate H.
Qed.

(** C10, amended.  For a name that resolves to an activity [a], the signup
    raises the 400 "Activity is full" if and only if the email is not
    enrolled in [a], [max_participants] is neither [None] nor [0], and the
    signup count of [a] has reached it.  When [max_participants] is [None] or
    [0] the signup never raises it, and signups of any number [k] of new
    emails all succeed, the count growing by [k]. *)
Theorem capacity_exceeded_iff (sch : Schema) (db : Store) (n e : string)
    (a : Activity) :
  Spec.findActivity db n = Some a ->
  (fst (signup_for_activity sch db n e)
   = Raise (HTTPException 400 "Activity is full")
   <-> ~ In (mkSignup (id a) e) (signups db)
       /\ exists m, max_participants a = Some m
                    /\ Py.truthy (Some m) = true
                    /\ m <= Spec.countSignups db (id a))
  /\ (max_participants a = None \/ max_participants a = Some 0 ->
      fst (signup_for_activity sch db n e)
      <> Raise (HTTPException 400 "Activity is full")
      /\ (forall emails,
            NoDup emails ->
            (forall e', In e' emails ->
                        ~ In (mkSignup (id a) e') (signups db)) ->
            forallb returned
              (fst (exec sch db (map (SignupCall n) emails))) = true
            /\ Spec.countSignups
                 (run sch db (map (SignupCall n) emails)) (id a)
               = Spec.countSignups db (id a)
                 + Z.of_nat (List.length emails))
      /\ (forall k,
            forallb returned
              (fst (exec sch db
                      (map (SignupCall n) (fresh_emails (signups db) k))))
            = true
            /\ Spec.countSignups
                 (run sch db
                    (map (SignupCall n) (fresh_emails (signups db) k)))
                 (id a)
               = Spec.countSignups db (id a) + Z.of_nat k)).
Proof.
  intros Hfind.
  assert (Hiff : fst (signup_for_activity sch db n e) = Raise CapacityExceeded
                 <-> Spec.hasSignup db (id a) e = false
                     /\ Spec.atCapacity db a = true).
  { rewrite signup_unfold. unfold Spec.signup. rewrite Hfind.
    destruct (Spec.hasSignup db (id a) e);
      [simpl; split; [discriminate | intros [H _]; discriminate H]|].
    destruct (Spec.atCapacity db a); simpl.
    - split; auto.
    - split; [discriminate | intros [_ H]; discriminate H]. }
  split.
  - change (HTTPException 400 "Activity is full") with CapacityExceeded.
    rewrite Hiff, hasSignup_not_In, atCapacity_true. reflexivity.
  - intros Hunset.
    assert (Ht : Py.truthy (max_participants a) = false)
      by (destruct Hunset as [-> | ->]; reflexivity).
    split; [|split].
    + change (HTTPException 400 "Activity is full") with CapacityExceeded.
      intros H. apply Hiff in H. destruct H as [_ H].
      rewrite (atCapacity_unset db a Ht) in H. discriminate H.
    + intros emails Hnd Hnew. apply open_signups; assumption.
    + intros k.
      destruct (open_signups sch n a (fresh_emails (signups db) k) db)
        as [Hall Hcount]; auto.
      * apply fresh_emails_NoDup.
      * intros e' He'. eapply fresh_emails_new; eauto.
      * rewrite fresh_emails_length in Hcount. auto.
Qed.

Lemma capacity_exceeded_iff_witness :
  fst (signup_for_activity strict (tutoring (Some 0)) "Tutoring"
         "bob@mergington.edu")
  <> Raise CapacityExceeded
  /\ Spec.countSignups
       (run strict (tutoring (Some 0))
          (map (SignupCall "Tutoring")
               (fresh_emails (signups (tutoring (Some 0))) 5))) 1
     = 6.
Proof.
  destruct (capacity_exceeded_iff strict (tutoring (Some 0)) "Tutoring"
              "bob@mergington.edu"
              (mkActivity 1 "Tutoring" "Peer tutoring" "Mondays, 3:30 PM"
                          (Some 0)) eq_refl)
    as [_ Hopen].
  destruct (Hopen (or_intror eq_refl)) as [Hnever [_ Hmany]].
  split; [exact Hnever|].
  destruct (Hmany 5%nat) as [_ Hcount]. exact Hcount.
Defined.

(** ** The Chess Club scenario of the specification *)

Example chess_club_scenario :
  fst (exec strict seeded
         [SignupCall "Chess Club" "x@y.edu";
          SignupCall "Chess Club" "x@y.edu";
          UnregisterCall "Chess Club" "x@y.edu";
          UnregisterCall "Chess Club" "x@y.edu"])
  = [Return "Signed up x@y.edu for Chess Club";
     Raise AlreadyRegistered;
     Return "Unregistered x@y.edu from Chess Club";
     Raise NotRegistered]
  /\ Spec.countSignups seeded 1 = 2
  /\ Spec.countSignups
       (run strict seeded [SignupCall "Chess Club" "x@y.edu"]) 1 = 3
  /\ run strict seeded
       [SignupCall "Chess Club" "x@y.edu";
        UnregisterCall "Chess Club" "x@y.edu"] = seeded.
Proof. repeat split; vm_compute; reflexivity. Qed.

(** * Further properties of the handlers *)

(** ** Rosters under an insert and a delete *)

Lemma roster_count (db : Store) (k : Z) :
  Spec.countSignups db k = Z.of_nat (List.length (roster db k)).
Proof. reflexivity. Qed.

Lemma roster_after_insert (db : Store) (aid k : Z) (e : string) :
  roster (Spec.addSignup db aid e) k =
  (roster db k ++ (if aid =? k then [mkSignup aid e] else []))%list.
Proof.
  unfold roster, Spec.addSignup; simpl. rewrite filter_app; simpl.
  unfold same_activity at 2; simpl. destruct (aid =? k); reflexivity.
Qed.

Lemma filter_delete_first (aid k : Z) (e : string) (rows : list Signup) :
  filter (same_activity k) (delete_first (same_pair aid e) rows) =
  if aid =? k
  then delete_first (same_pair aid e) (filter (same_activity k) rows)
  else filter (same_activity k) rows.
Proof.
  induction rows as [|r rows IH].
  - simpl. destruct (aid =? k); reflexivity.
  - cbn [delete_first filter].
    destruct (same_pair aid e r) eqn:Hp.
    + pose proof Hp as Hr. apply same_pair_iff in Hr.
      assert (Hk : same_activity k r = (aid =? k)) by (subst r; reflexivity).
      rewrite Hk. destruct (aid =? k); [|reflexivity].
      cbn [delete_first]. rewrite Hp. reflexivity.
    + cbn [filter]. rewrite IH.
      destruct (same_activity k r); [|reflexivity].
      destruct (aid =? k); [|reflexivity].
      cbn [delete_first]. rewrite Hp. reflexivity.
Qed.

Lemma roster_after_delete (db : Store) (aid k : Z) (e : string) :
  roster (Spec.removeSignup db aid e) k =
  if aid =? k then delete_first (same_pair aid e) (roster db k)
  else roster db k.
Proof. unfold roster, Spec.removeSignup; simpl. apply filter_delete_first. Qed.

Lemma delete_first_length (p : Signup -> bool) (rows : list Signup) :
  existsb p rows = true ->
  S (List.length (delete_first p rows)) = List.length rows.
Proof.
  induction rows as [|r rows IH]; simpl; [discriminate|].
  destruct (p r); simpl; [reflexivity|]. intros H. rewrite IH; auto.
Qed.

Lemma delete_first_absent (p : Signup -> bool) (rows : list Signup) :
  existsb p rows = false -> delete_first p rows = rows.
Proof.
  induction rows as [|r rows IH]; simpl; [reflexivity|].
  destruct (p r); simpl; [discriminate|]. intros H. rewrite IH; auto.
Qed.

Lemma existsb_roster (aid : Z) (e : string) (rows : list Signup) :
  existsb (same_pair aid e) (filter (same_activity aid) rows) =
  existsb (same_pair aid e) rows.
Proof.
  induction rows as [|r rows IH]; simpl; [reflexivity|].
  destruct (same_activity aid r) eqn:Hr; simpl; rewrite IH; [reflexivity|].
  unfold same_pair. unfold same_activity in Hr. rewrite Hr. reflexivity.
Qed.

(** In a table without duplicate rows, the deleted row is gone. *)
Lemma delete_first_gone (aid : Z) (e : string) (rows : list Signup) :
  NoDup rows -> ~ In (mkSignup aid e) (delete_first (same_pair aid e) rows).
Proof.
  induction rows as [|r rows IH]; simpl; intros Hnd; [tauto|].
  inversion Hnd as [|? ? Hnotin Hnd']; subst.
  destruct (same_pair aid e r) eqn:Hp.
  - apply same_pair_iff in Hp. subst r. exact Hnotin.
  - intros [Heq|Hin]; [|exact (IH Hnd' Hin)].
    subst r. rewrite (proj2 (same_pair_iff aid e _) eq_refl) in Hp.
    discriminate.
Qed.

Lemma delete_first_permutation (p : Signup -> bool) (rows : list Signup)
    (s : Signup) :
  find p rows = Some s -> Permutation rows (s :: delete_first p rows).
Proof.
  induction rows as [|r rows IH]; simpl; [discriminate|].
  destruct (p r); intros H.
  - inversion H; subst. apply Permutation_refl.
  - eapply perm_trans; [apply perm_skip, IH, H | apply perm_swap].
Qed.

(** ** The listing of a store with unique names *)

Lemma listed_unique (db : Store) :
  names_unique db ->
  listed db = map (fun a => (name a, info_of db a)) (activities db).
Proof.
  intros Hnd. unfold listed, get_activities, Db.all; simpl.
  rewrite listing_fold; [reflexivity | exact Hnd].
Qed.

(** ** What a successful call changes *)

(** X1. When the name resolves to an activity in which the email is
    enrolled, [unregister_from_activity] returns its confirmation, leaves the
    activities table alone, lowers the signup count of that activity by
    exactly one and keeps the roster of every other activity; if no pair
    occurred twice, the pair is gone from the signups table. *)
Theorem unregister_removes_one (db : Store) (n e : string) (a : Activity) :
  Spec.findActivity db n = Some a ->
  In (mkSignup (id a) e) (signups db) ->
  fst (unregister_from_activity db n e) =
  Return ("Unregistered " ++ e ++ " from " ++ n)
  /\ activities (snd (unregister_from_activity db n e)) = activities db
  /\ Spec.countSignups (snd (unregister_from_activity db n e)) (id a) =
     Spec.countSignups db (id a) - 1
  /\ (forall k, k <> id a ->
        roster (snd (unregister_from_activity db n e)) k = roster db k)
  /\ (pairs_unique db ->
      ~ In (mkSignup (id a) e)
           (signups (snd (unregister_from_activity db n e)))).
Proof.
  intros Hfind Hin. apply hasSignup_In in Hin.
  rewrite unregister_unfold. unfold Spec.unregister. rewrite Hfind, Hin.
  cbn [fst snd]. split; [reflexivity|]. split; [reflexivity|].
  split; [|split].
  - rewrite !roster_count, roster_after_delete, Z.eqb_refl.
    assert (Hex : existsb (same_pair (id a) e) (roster db (id a)) = true)
      by (unfold roster; rewrite existsb_roster; exact Hin).
    apply delete_first_length in Hex. lia.
  - intros k Hk. rewrite roster_after_delete.
    destruct (id a =? k) eqn:E; [|reflexivity].
    apply Z.eqb_eq in E. congruence.
  - intros Hnd. simpl. apply delete_first_gone, Hnd.
Qed.

Lemma unregister_removes_one_witness :
  Spec.countSignups
    (snd (unregister_from_activity seeded "Chess Club"
            "daniel@mergington.edu")) 1 = 1
  /\ roster (snd (unregister_from_activity seeded "Chess Club"
                    "daniel@mergington.edu")) 2
     = roster seeded 2.
Proof.
  destruct (unregister_removes_one seeded "Chess Club"
              "daniel@mergington.edu"
              (mkActivity 1 "Chess Club"
                 "Learn strategies and compete in chess tournaments"
                 "Fridays, 3:30 PM - 5:00 PM" (Some 12)))
    as [_ [_ [Hcount [Hframe _]]]].
  - reflexivity.
  - simpl. right. left. reflexivity.
  - split; [exact Hcount | apply Hframe; discriminate].
Defined.

(** X2. When [signup_for_activity] returns, the name resolved to an
    activity, the message names the email and the activity, the activities
    table is as before, and the signups table has one more row, the new
    pair, after the rows it had, so that only the rows of that activity
    changed; with unique names, the listing then shows under the name the
    same description, schedule and capacity as before, and as participants
    the email together with those listed before, in some order. *)
Theorem signup_appends_participant (sch : Schema) (db db' : Store)
    (n e msg : string) :
  signup_for_activity sch db n e = (Return msg, db') ->
  exists a,
    Spec.findActivity db n = Some a
    /\ msg = "Signed up " ++ e ++ " for " ++ n
    /\ activities db' = activities db
    /\ (forall k, roster db' k =
                  (roster db k
                   ++ (if id a =? k then [mkSignup (id a) e] else []))%list)
    /\ (names_unique db ->
        exists before after,
          Py.getitem (listed db) n = Some before
          /\ Py.getitem (listed db') n = Some after
          /\ info_description after = info_description before
          /\ info_schedule after = info_schedule before
          /\ info_max_participants after = info_max_participants before
          /\ Permutation (info_participants after)
                         (e :: info_participants before)).
Proof.
  intros Hok. rewrite signup_unfold in Hok. unfold Spec.signup in Hok.
  destruct (Spec.findActivity db n) as [a|] eqn:Hfind; [|discriminate].
  destruct (Spec.hasSignup db (id a) e); [discriminate|].
  destruct (Spec.atCapacity db a); [discriminate|].
  inversion Hok; subst; clear Hok. exists a.
  split; [reflexivity|]. split; [reflexivity|]. split; [reflexivity|].
  split; [intros k; apply roster_after_insert|].
  intros Hnd. apply findActivity_In in Hfind. destruct Hfind as [Ha Hn].
  exists (info_of db a), (info_of (Spec.addSignup db (id a) e) a).
  subst n. split; [|split].
  - rewrite (listed_unique db Hnd).
    apply (getitem_listing (info_of db)); assumption.
  - rewrite (listed_unique (Spec.addSignup db (id a) e) Hnd).
    exact (getitem_listing (info_of (Spec.addSignup db (id a) e))
             (activities db) a Hnd Ha).
  - repeat split. unfold info_of, signups_of; simpl.
    change (filter (same_activity (id a)) (signups db ++ [mkSignup (id a) e]))
      with (roster (Spec.addSignup db (id a) e) (id a)).
    rewrite roster_after_insert, Z.eqb_refl, map_app. simpl.
    apply Permutation_sym, Permutation_cons_append.
Qed.

Lemma signup_appends_participant_witness :
  exists after,
    Py.getitem
      (listed (snd (signup_for_activity strict seeded "Chess Club"
                      "a@y.edu")))
      "Chess Club" = Some after
    /\ Permutation (info_participants after)
         ["a@y.edu"; "daniel@mergington.edu"; "michael@mergington.edu"].
Proof.
  destruct (signup_appends_participant strict seeded
              (snd (signup_for_activity strict seeded "Chess Club" "a@y.edu"))
              "Chess Club" "a@y.edu" "Signed up a@y.edu for Chess Club"
              eq_refl)
    as [a [_ [_ [_ [_ Hlist]]]]].
  destruct Hlist as [before [after [Hb [Ha [_ [_ [_ Hperm]]]]]]].
  { unfold names_unique. simpl.
    repeat (constructor;
            [simpl; intros H;
             repeat (destruct H as [H|H]; [discriminate H|]); exact H|]).
    constructor. }
  vm_compute in Hb. inversion Hb; subst before. simpl in Hperm.
  exists after. split; [exact Ha|].
  eapply perm_trans; [exact Hperm | apply perm_skip, perm_swap].
Defined.

(** X3. A call touches at most one roster, by at most one row: there is an
    activity key such that every other roster is as before and the count
    under that key moved by at most one.  A call that raises leaves the
    whole store as it was. *)
Theorem call_touches_one_roster (sch : Schema) (db : Store) (c : Call) :
  (returned (fst (call sch db c)) = false -> snd (call sch db c) = db)
  /\ exists k,
       (forall k', k' <> k ->
          roster (snd (call sch db c)) k' = roster db k')
       /\ Z.abs (Spec.countSignups (snd (call sch db c)) k
                 - Spec.countSignups db k) <= 1.
Proof.
  destruct c as [n e|n e]; cbn [call].
  - signup_cases db n e; cbn [fst snd returned];
      try (split; [reflexivity | exists 0; split; [reflexivity | lia]]).
    split; [discriminate|]. exists (id a). split.
    + intros k' Hk. rewrite roster_after_insert.
      destruct (id a =? k') eqn:E; [|apply app_nil_r].
      apply Z.eqb_eq in E. congruence.
    + rewrite count_after_insert, Z.eqb_refl. lia.
  - unregister_cases db n e; cbn [fst snd returned];
      try (split; [reflexivity | exists 0; split; [reflexivity | lia]]).
    split; [discriminate|]. exists (id a). split.
    + intros k' Hk. rewrite roster_after_delete.
      destruct (id a =? k') eqn:E; [|reflexivity].
      apply Z.eqb_eq in E. congruence.
    + rewrite !roster_count, roster_after_delete, Z.eqb_refl.
      assert (Hex : existsb (same_pair (id a) e) (roster db (id a)) = true)
        by (unfold roster; rewrite existsb_roster; exact Hhas).
      apply delete_first_length in Hex. lia.
Qed.

(** X4. A signup request served alone, that is with no commit of another
    session between its duplicate check and its own commit, never raises
    the storage's [IntegrityError]: it returns or raises one of its three
    HTTP errors, and what it does is the same whether or not the signups
    table declares the unique-pair constraint, because its insert comes
    after its duplicate check on the same store.  (A handler of this
    development is such a request: it maps the committed store it starts
    from to the store it commits.  Requests that interleave are not
    described.) *)
Theorem signup_raises_only_http (sch : Schema) (db : Store) (n e : string) :
  fst (signup_for_activity sch db n e) <> Raise IntegrityError
  /\ (forall sch',
        signup_for_activity sch' db n e = signup_for_activity sch db n e)
  /\ (fst (signup_for_activity sch db n e)
      = Return ("Signed up " ++ e ++ " for " ++ n)
      \/ fst (signup_for_activity sch db n e)
         = Raise (HTTPException 404 "Activity not found")
      \/ fst (signup_for_activity sch db n e)
         = Raise (HTTPException 400 "Student is already signed up")
      \/ fst (signup_for_activity sch db n e)
         = Raise (HTTPException 400 "Activity is full")).
Proof.
  split; [|split].
  - signup_cases db n e; cbn [fst]; discriminate.
  - intros sch'. rewrite !signup_unfold. reflexivity.
  - signup_cases db n e; cbn [fst]; auto.
Qed.

(** ** The listing, whatever the names *)

Lemma getitem_setitem {V : Type} (d : Py.dict V) (k k' : string) (v : V) :
  Py.getitem (Py.setitem d k v) k' =
  if String.eqb k k' then Some v else Py.getitem d k'.
Proof.
  induction d as [|[k0 v0] d IH]; simpl.
  - reflexivity.
  - destruct (String.eqb_spec k0 k) as [->|Hne]; simpl.
    + destruct (String.eqb k k'); reflexivity.
    + rewrite IH. destruct (String.eqb_spec k0 k') as [->|Hne']; [|reflexivity].
      destruct (String.eqb_spec k k') as [->|_]; [congruence | reflexivity].
Qed.

Lemma keys_setitem_In {V : Type} (d : Py.dict V) (k k' : string) (v : V) :
  In k' (Py.keys (Py.setitem d k v)) <-> k' = k \/ In k' (Py.keys d).
Proof.
  induction d as [|[k0 v0] d IH]; simpl.
  - intuition congruence.
  - destruct (String.eqb_spec k0 k) as [->|Hne]; simpl.
    + intuition congruence.
    + rewrite IH. intuition congruence.
Qed.

Lemma keys_setitem_NoDup {V : Type} (d : Py.dict V) (k : string) (v : V) :
  NoDup (Py.keys d) -> NoDup (Py.keys (Py.setitem d k v)).
Proof.
  induction d as [|[k0 v0] d IH]; simpl; intros Hnd.
  - repeat constructor. simpl. tauto.
  - inversion Hnd as [|? ? Hnotin Hnd']; subst.
    destruct (String.eqb_spec k0 k) as [->|Hne]; simpl.
    + constructor; assumption.
    + constructor; [|auto]. rewrite keys_setitem_In. intuition congruence.
Qed.

Lemma find_last {A : Type} (p : A -> bool) (l : list A) (x : A) :
  find p (rev (x :: l)) =
  match find p (rev l) with
  | Some y => Some y
  | None => if p x then Some x else None
  end.
Proof.
  simpl. generalize (rev l) as r. intros r.
  induction r as [|y r IH]; simpl; [reflexivity|].
  destruct (p y); [reflexivity | exact IH].
Qed.

Lemma fold_setitem_lookup {V : Type} (f : Activity -> V)
    (acts : list Activity) (n : string) :
  forall acc : Py.dict V,
    Py.getitem
      (fold_left (fun result a => Py.setitem result (name a) (f a)) acts acc)
      n =
    match find (same_name n) (rev acts) with
    | Some a => Some (f a)
    | None => Py.getitem acc n
    end.
Proof.
  induction acts as [|a acts IH]; intros acc; [reflexivity|].
  cbn [fold_left]. rewrite IH, find_last.
  destruct (find (same_name n) (rev acts)); [reflexivity|].
  rewrite getitem_setitem. unfold same_name.
  destruct (String.eqb (name a) n); reflexivity.
Qed.

Lemma fold_setitem_keys {V : Type} (f : Activity -> V)
    (acts : list Activity) :
  forall acc : Py.dict V,
    NoDup (Py.keys acc) ->
    NoDup (Py.keys (fold_left (fun result a => Py.setitem result (name a) (f a))
                              acts acc))
    /\ forall n,
         In n (Py.keys (fold_left
                          (fun result a => Py.setitem result (name a) (f a))
                          acts acc))
         <-> In n (Py.keys acc) \/ In n (map name acts).
Proof.
  induction acts as [|a acts IH]; intros acc Hnd; cbn [fold_left].
  - split; [exact Hnd | intros n; simpl; tauto].
  - destruct (IH (Py.setitem acc (name a) (f a))
                 (keys_setitem_NoDup acc (name a) (f a) Hnd)) as [Hnd' Hin].
    split; [exact Hnd'|]. intros n. rewrite Hin, keys_setitem_In. simpl.
    intuition congruence.
Qed.

Lemma listed_lookup (db : Store) (n : string) :
  Py.getitem (listed db) n =
  option_map (info_of db) (find (same_name n) (rev (activities db))).
Proof.
  unfold listed, get_activities, Db.all; simpl.
  rewrite fold_setitem_lookup.
  destruct (find (same_name n) (rev (activities db))); reflexivity.
Qed.

(** ** Listing *)

(** C8. [get_activities] returns (it never raises) and leaves the store as
    it was.  Its result is a mapping that has every activity name once
    and no other key; with unique activity names, under the name of each
    activity it holds an object with that activity's description, schedule
    and [max_participants] and with the emails of the activity's signups,
    each as often as the signups table holds it, in the order in which the
    relationship yields the rows. *)
Theorem get_activities_listing (db : Store) :
  snd (get_activities db) = db
  /\ returned (fst (get_activities db)) = true
  /\ exists result,
       fst (get_activities db) = Return result
       /\ NoDup (Py.keys result)
       /\ (forall n, In n (Py.keys result)
                     <-> In n (map name (activities db)))
       /\ (names_unique db ->
           forall a, In a (activities db) ->
             exists info,
               Py.getitem result (name a) = Some info
               /\ info_description info = description a
               /\ info_schedule info = schedule a
               /\ info_max_participants info = max_participants a
               /\ Permutation (info_participants info)
                    (map Db.email
                       (filter (fun s => activity_id s =? id a)
                               (signups db)))).
Proof.
  split; [reflexivity|]. split; [reflexivity|].
  exists (listed db). split; [reflexivity|].
  assert (Hkeys : NoDup (Py.keys (listed db))
                  /\ forall n, In n (Py.keys (listed db))
                               <-> In n (map name (activities db))).
  { unfold listed, get_activities, Db.all; simpl.
    destruct (fold_setitem_keys (info_of db) (activities db) [])
      as [Hnd Hin]; [constructor|].
    split; [exact Hnd|]. intros n. rewrite Hin. simpl. tauto. }
  destruct Hkeys as [Hnd Hin]. split; [exact Hnd|]. split; [exact Hin|].
  intros Hnames a Ha. exists (info_of db a).
  split; [|repeat split; apply Permutation_refl].
  rewrite (listed_unique db Hnames).
  apply (getitem_listing (info_of db)); assumption.
Qed.

Lemma get_activities_listing_witness :
  exists info,
    Py.getitem (listed seeded) "Chess Club" = Some info
    /\ info_max_participants info = Some 12
    /\ Permutation (info_participants info)
         ["daniel@mergington.edu"; "michael@mergington.edu"].
Proof.
  destruct (get_activities_listing seeded)
    as [_ [_ [result [Hres [_ [_ Hlook]]]]]].
  destruct (Hlook
              ltac:(unfold names_unique; simpl;
                    repeat (constructor;
                            [simpl; intros H;
                             repeat (destruct H as [H|H];
                                     [discriminate H|]); exact H|]);
                    constructor)
              (mkActivity 1 "Chess Club"
                 "Learn strategies and compete in chess tournaments"
                 "Fridays, 3:30 PM - 5:00 PM" (Some 12))
              (or_introl eq_refl))
    as [info [Hget [_ [_ [Hmax Hperm]]]]].
  exists info. split; [|split].
  - unfold listed. rewrite Hres. exact Hget.
  - exact Hmax.
  - eapply perm_trans; [exact Hperm | apply perm_swap].
Defined.

(** X5. [get_activities] gives every name of the activities table once, and
    under a name the description, schedule and capacity of the last row
    that carries it, with the emails of that row's signups in some order;
    [signup_for_activity] resolves a name to the first row that carries it
    and inserts under that row's key.  So with two rows of one name the
    earlier row is not listed, and it is the one signups go to. *)
Theorem listing_last_wins (db : Store) :
  (forall n,
      match find (same_name n) (rev (activities db)) with
      | None => Py.getitem (listed db) n = None
      | Some a =>
          exists info,
            Py.getitem (listed db) n = Some info
            /\ info_description info = description a
            /\ info_schedule info = schedule a
            /\ info_max_participants info = max_participants a
            /\ Permutation (info_participants info)
                           (map Db.email (roster db (id a)))
      end)
  /\ NoDup (Py.keys (listed db))
  /\ (forall n, In n (Py.keys (listed db))
                <-> In n (map name (activities db)))
  /\ (forall sch n e msg db',
        signup_for_activity sch db n e = (Return msg, db') ->
        exists a,
          find (same_name n) (activities db) = Some a
          /\ signups db' = (signups db ++ [mkSignup (id a) e])%list).
Proof.
  split.
  { intros n. rewrite listed_lookup.
    destruct (find (same_name n) (rev (activities db))) as [a|];
      [|reflexivity].
    exists (info_of db a). split; [reflexivity|].
    repeat split. apply Permutation_refl. }
  unfold listed at 1 2, get_activities, Db.all; simpl.
  destruct (fold_setitem_keys (info_of db) (activities db) [])
    as [Hnd Hin]; [constructor|].
  split; [exact Hnd|]. split; [intros n; rewrite Hin; simpl; tauto|].
  intros sch n e msg db' Hok. rewrite signup_unfold in Hok.
  unfold Spec.signup, Spec.findActivity in Hok.
  destruct (find (same_name n) (activities db)) as [a|]; [|discriminate].
  destruct (Spec.hasSignup db (id a) e); [discriminate|].
  destruct (Spec.atCapacity db a); [discriminate|].
  inversion Hok; subst. exists a. split; reflexivity.
Qed.

Lemma listing_last_wins_witness :
  (exists info,
      Py.getitem (listed twins) "Choir" = Some info
      /\ info_description info = "Evening choir")
  /\ signups (snd (signup_for_activity lax twins "Choir"
                     "sam@mergington.edu"))
     = [mkSignup 2 "eve@mergington.edu"; mkSignup 1 "sam@mergington.edu"].
Proof.
  destruct (listing_last_wins twins) as [Hlast [_ [_ Hfirst]]]. split.
  - pose proof (Hlast "Choir") as H. vm_compute in H.
    destruct H as [info [Hget [Hd _]]].
    exists info. split; [exact Hget | exact Hd].
  - destruct (Hfirst lax "Choir" "sam@mergington.edu"
                "Signed up sam@mergington.edu for Choir"
                (snd (signup_for_activity lax twins "Choir"
                        "sam@mergington.edu")) eq_refl)
      as [a [Ha Hs]].
    vm_compute in Ha. inversion Ha; subst a. exact Hs.
Defined.

(** ** What no sequence of calls changes *)

Lemma keys_setitem_eq {V : Type} (k : string) (v v' : V) :
  forall d d' : Py.dict V,
    Py.keys d = Py.keys d' ->
    Py.keys (Py.setitem d k v) = Py.keys (Py.setitem d' k v').
Proof.
  induction d as [|[k0 v0] d IH]; intros [|[k1 v1] d'] H; simpl in H;
    try discriminate; [reflexivity|].
  inversion H; subst. simpl.
  destruct (String.eqb k1 k); simpl; [congruence|].
  f_equal. apply IH. assumption.
Qed.

Lemma fold_setitem_keys_eq {V : Type} (f g : Activity -> V)
    (acts : list Activity) :
  forall acc acc' : Py.dict V,
    Py.keys acc = Py.keys acc' ->
    Py.keys (fold_left (fun result a => Py.setitem result (name a) (f a))
                       acts acc)
    = Py.keys (fold_left (fun result a => Py.setitem result (name a) (g a))
                         acts acc').
Proof.
  induction acts as [|a acts IH]; intros acc acc' H; cbn [fold_left];
    [exact H|].
  apply IH, keys_setitem_eq, H.
Qed.

Lemma call_references_ok (sch : Schema) (db : Store) (c : Call) :
  references_ok db -> references_ok (snd (call sch db c)).
Proof.
  unfold references_ok. intros Href. destruct c as [n e|n e]; simpl.
  - signup_cases db n e; try exact Href. simpl.
    intros s Hs. apply in_app_or in Hs. destruct Hs as [Hs|[<-|[]]].
    + apply Href, Hs.
    + apply findActivity_In in Hfind. exists a. tauto.
  - unregister_cases db n e; try exact Href. simpl.
    intros s Hs. apply Href. eapply delete_first_incl. exact Hs.
Qed.

(** X6. No sequence of signup and unregister calls adds, removes or alters
    an activity: the activities table is the same afterwards, so the listing
    has the same names in the same order, each with the description, the
    schedule and the capacity it had. *)
Theorem calls_keep_activities (sch : Schema) (db : Store) (cs : list Call) :
  activities (run sch db cs) = activities db
  /\ Py.keys (listed (run sch db cs)) = Py.keys (listed db)
  /\ (forall n info',
        Py.getitem (listed (run sch db cs)) n = Some info' ->
        exists info,
          Py.getitem (listed db) n = Some info
          /\ info_description info' = info_description info
          /\ info_schedule info' = info_schedule info
          /\ info_max_participants info' = info_max_participants info).
Proof.
  pose proof (run_activities sch cs db) as Hacts.
  split; [exact Hacts|]. split.
  - unfold listed, get_activities, Db.all; simpl. rewrite Hacts.
    apply fold_setitem_keys_eq. reflexivity.
  - intros n info'. rewrite !listed_lookup, Hacts.
    destruct (find (same_name n) (rev (activities db))) as [a|]; simpl;
      [|discriminate].
    intros H. inversion H; subst. exists (info_of db a). auto.
Qed.

(** X7. If every signup row references an activity of the store, so does
    every signup row after any sequence of calls: a signup inserts only
    under the key of the activity it resolved, and an unregister inserts
    nothing. *)
Theorem calls_keep_references (sch : Schema) (db : Store) (cs : list Call) :
  references_ok db -> references_ok (run sch db cs).
Proof.
  apply (run_invariant sch references_ok).
  intros s c. apply call_references_ok.
Qed.

Lemma calls_keep_references_witness :
  references_ok
    (run strict (tutoring (Some 3))
       [SignupCall "Tutoring" "bob@mergington.edu";
        SignupCall "Fencing" "bob@mergington.edu";
        UnregisterCall "Tutoring" "ana@mergington.edu"]).
Proof.
  apply (calls_keep_references strict (tutoring (Some 3))).
  intros s [<-|[]]. eexists. split; [left; reflexivity | reflexivity].
Defined.

(** ** The stores the service can reach *)

Lemma references_ok_check (db : Store) :
  forallb (fun s => existsb (fun a => id a =? activity_id s) (activities db))
          (signups db) = true ->
  references_ok db.
Proof.
  intros H s Hs. rewrite forallb_forall in H. specialize (H s Hs).
  apply existsb_exists in H. destruct H as [a [Ha Hid]].
  apply Z.eqb_eq in Hid. exists a. auto.
Qed.

Lemma within_capacity_check (db : Store) :
  forallb (fun a =>
             match max_participants a with
             | Some m =>
                 negb (Py.truthy (Some m))
                 || (Spec.countSignups db (id a) <=? m)
             | None => true
             end)
          (activities db) = true ->
  within_capacity db.
Proof.
  intros H a m Ha Hm Ht. rewrite forallb_forall in H. specialize (H a Ha).
  rewrite Hm, Ht in H. simpl in H. apply Z.leb_le. exact H.
Qed.

Ltac distinct_entries :=
  simpl;
  repeat (constructor;
          [simpl; intros H;
           repeat (destruct H as [H|H]; [discriminate H|]); exact H|]);
  constructor.

Lemma seeded_keys_unique : keys_unique seeded.
Proof. unfold keys_unique. distinct_entries. Qed.

Lemma seeded_names_unique : names_unique seeded.
Proof. unfold names_unique. distinct_entries. Qed.

Lemma seeded_pairs_unique : pairs_unique seeded.
Proof. unfold pairs_unique. distinct_entries. Qed.

Lemma seeded_references_ok : references_ok seeded.
Proof. apply references_ok_check. vm_compute. reflexivity. Qed.

Lemma seeded_within_capacity : within_capacity seeded.
Proof. apply within_capacity_check. vm_compute. reflexivity. Qed.

Lemma roster_emails_NoDup (rows : list Signup) (k : Z) :
  NoDup rows -> NoDup (map Db.email (filter (same_activity k) rows)).
Proof.
  induction rows as [|r rows IH]; simpl; intros Hnd; [constructor|].
  inversion Hnd as [|? ? Hnotin Hnd']; subst.
  destruct (same_activity k r) eqn:Hr; [|auto].
  simpl. constructor; [|auto].
  intros Hin. apply in_map_iff in Hin. destruct Hin as [s [He Hs]].
  apply filter_In in Hs. destruct Hs as [Hs Hk].
  unfold same_activity in Hr, Hk. apply Z.eqb_eq in Hr, Hk.
  apply Hnotin. replace r with s; [exact Hs|].
  destruct s, r; simpl in *. congruence.
Qed.

(** X8. Started on empty tables, the service seeds them, and whatever
    requests follow, the store keeps the invariants of the data model:
    distinct activity keys, distinct activity names, no signup pair twice,
    every signup referencing an activity, and no activity above its
    capacity. *)
Theorem service_invariants (sch : Schema) (cs : list Call) :
  keys_unique (run sch (snd (seed sch Db.empty)) cs)
  /\ names_unique (run sch (snd (seed sch Db.empty)) cs)
  /\ pairs_unique (run sch (snd (seed sch Db.empty)) cs)
  /\ references_ok (run sch (snd (seed sch Db.empty)) cs)
  /\ within_capacity (run sch (snd (seed sch Db.empty)) cs).
Proof.
  rewrite seed_empty. cbn [snd].
  assert (Hcap : keys_unique (run sch seeded cs)
                 /\ within_capacity (run sch seeded cs)).
  { apply (run_invariant sch (fun s => keys_unique s /\ within_capacity s)).
    - intros s c. apply call_within_capacity.
    - split; [exact seeded_keys_unique | exact seeded_within_capacity]. }
  destruct Hcap as [Hk Hc].
  split; [exact Hk|].
  split; [unfold names_unique; rewrite run_activities;
          exact seeded_names_unique|].
  split; [apply (run_invariant sch pairs_unique);
          [intros s c; apply call_pairs_unique | exact seeded_pairs_unique]|].
  split; [apply (run_invariant sch references_ok);
          [intros s c; apply call_references_ok
          | exact seeded_references_ok]|].
  exact Hc.
Qed.

(** X9. From a store with distinct activity keys, no pair twice and no
    activity above its capacity, after any sequence of calls every entry
    that [get_activities] lists shows no participant twice and, when its
    capacity is in force, no more participants than the capacity. *)
Theorem listing_respects_capacity (sch : Schema) (db : Store)
    (cs : list Call) (n : string) (info : ActivityInfo) :
  keys_unique db ->
  pairs_unique db ->
  within_capacity db ->
  Py.getitem (listed (run sch db cs)) n = Some info ->
  NoDup (info_participants info)
  /\ (forall m, info_max_participants info = Some m ->
                Py.truthy (Some m) = true ->
                Z.of_nat (List.length (info_participants info)) <= m).
Proof.
  intros Hk Hp Hc Hget.
  assert (Hcap : keys_unique (run sch db cs)
                 /\ within_capacity (run sch db cs)).
  { apply (run_invariant sch (fun s => keys_unique s /\ within_capacity s)).
    - intros s c. apply call_within_capacity.
    - split; assumption. }
  assert (Hpairs : pairs_unique (run sch db cs)).
  { apply (run_invariant sch pairs_unique); [|exact Hp].
    intros s c. apply call_pairs_unique. }
  destruct Hcap as [_ Hcap]. rewrite listed_lookup in Hget.
  destruct (find (same_name n) (rev (activities (run sch db cs))))
    as [a|] eqn:Hfind; [|discriminate].
  apply find_some in Hfind. destruct Hfind as [Ha _].
  apply in_rev in Ha. inversion Hget; subst info; clear Hget.
  unfold info_of, signups_of; simpl. split.
  - apply roster_emails_NoDup, Hpairs.
  - intros m Hm Ht. rewrite length_map. apply (Hcap a m Ha Hm Ht).
Qed.

Lemma listing_respects_capacity_witness :
  NoDup ["ana@mergington.edu"; "bob@mergington.edu"]
  /\ (forall m, Some 2 = Some m -> Py.truthy (Some m) = true ->
                Z.of_nat 2 <= m).
Proof.
  apply (listing_respects_capacity strict (tutoring (Some 2))
           [SignupCall "Tutoring" "bob@mergington.edu";
            SignupCall "Tutoring" "carl@mergington.edu"]
           "Tutoring"
           (mkInfo "Peer tutoring" "Mondays, 3:30 PM" (Some 2)
                   ["ana@mergington.edu"; "bob@mergington.edu"])).
  - unfold keys_unique. distinct_entries.
  - unfold pairs_unique. distinct_entries.
  - apply within_capacity_check. vm_compute. reflexivity.
  - reflexivity.
Defined.

(** ** Filling an activity *)

Lemma atCapacity_below (db : Store) (a : Activity) (m : Z) :
  max_participants a = Some m -> Spec.countSignups db (id a) < m ->
  Spec.atCapacity db a = false.
Proof.
  intros Hm Hlt. unfold Spec.atCapacity. rewrite Hm, Z.geb_leb.
  replace (m <=? Spec.countSignups db (id a)) with false;
    [apply andb_false_r|].
  symmetry. apply Z.leb_gt. exact Hlt.
Qed.

Lemma bounded_signups (sch : Schema) (n : string) (a : Activity) (m : Z)
    (emails : list string) :
  forall db,
    Spec.findActivity db n = Some a ->
    max_participants a = Some m ->
    NoDup emails ->
    (forall e, In e emails -> ~ In (mkSignup (id a) e) (signups db)) ->
    Spec.countSignups db (id a) + Z.of_nat (List.length emails) <= m ->
    forallb returned (fst (exec sch db (map (SignupCall n) emails))) = true
    /\ run sch db (map (SignupCall n) emails) =
       mkStore (activities db)
               (signups db ++ map (mkSignup (id a)) emails)%list.
Proof.
  induction emails as [|e emails IH]; intros db Hfind Hm Hnd Hnew Hroom.
  - unfold run; simpl. rewrite app_nil_r. destruct db; auto.
  - cbn [map]. rewrite exec_cons, run_cons. cbn [call].
    rewrite signup_unfold. unfold Spec.signup. rewrite Hfind.
    assert (Hhas : Spec.hasSignup db (id a) e = false)
      by (apply hasSignup_not_In, Hnew; left; reflexivity).
    cbn [List.length] in Hroom.
    rewrite Hhas, (atCapacity_below db a m Hm) by lia. cbn [fst snd].
    inversion Hnd as [|? ? Hnotin Hnd']; subst.
    destruct (IH (Spec.addSignup db (id a) e)) as [Hall Hrun]; auto.
    { intros e' He' Hrow. simpl in Hrow. apply in_app_or in Hrow.
      destruct Hrow as [Hrow|[Heq|[]]].
      - apply (Hnew e'); [right; exact He' | exact Hrow].
      - inversion Heq; subst. tauto. }
    { rewrite count_after_insert, Z.eqb_refl. lia. }
    split; [exact Hall|].
    rewrite Hrun. simpl. rewrite <- app_assoc. reflexivity.
Qed.

(** X10. The capacity is tight.  For an activity whose capacity [m] is in
    force, signups of distinct new emails that bring the count to exactly
    [m] all succeed, in order, at the end of the signups table; after them
    the signup of any further new email raises the 400 "Activity is full"
    and changes nothing. *)
Theorem fill_to_capacity (sch : Schema) (db : Store) (n : string)
    (a : Activity) (m : Z) (emails : list string) :
  Spec.findActivity db n = Some a ->
  max_participants a = Some m ->
  Py.truthy (Some m) = true ->
  NoDup emails ->
  (forall e, In e emails -> ~ In (mkSignup (id a) e) (signups db)) ->
  Spec.countSignups db (id a) + Z.of_nat (List.length emails) = m ->
  forallb returned (fst (exec sch db (map (SignupCall n) emails))) = true
  /\ signups (run sch db (map (SignupCall n) emails)) =
     (signups db ++ map (mkSignup (id a)) emails)%list
  /\ Spec.countSignups (run sch db (map (SignupCall n) emails)) (id a) = m
  /\ (forall e',
        ~ In e' emails -> ~ In (mkSignup (id a) e') (signups db) ->
        signup_for_activity sch (run sch db (map (SignupCall n) emails)) n e'
        = (Raise (HTTPException 400 "Activity is full"),
           run sch db (map (SignupCall n) emails))).
Proof.
  intros Hfind Hm Ht Hnd Hnew Hfill.
  destruct (bounded_signups sch n a m emails db) as [Hall Hrun]; auto;
    [lia|].
  assert (Hcount : Spec.countSignups
                     (run sch db (map (SignupCall n) emails)) (id a) = m).
  { rewrite Hrun. unfold Spec.countSignups; simpl.
    rewrite filter_app, length_app.
    replace (filter (same_activity (id a)) (map (mkSignup (id a)) emails))
      with (map (mkSignup (id a)) emails).
    - rewrite length_map. unfold Spec.countSignups in Hfill. lia.
    - clear. induction emails as [|e emails IH]; simpl; [reflexivity|].
      unfold same_activity at 1; simpl. rewrite Z.eqb_refl. f_equal.
      exact IH. }
  split; [exact Hall|]. split; [rewrite Hrun; reflexivity|].
  split; [exact Hcount|].
  intros e' Hother Hnew'. rewrite signup_unfold. unfold Spec.signup.
  replace (Spec.findActivity (run sch db (map (SignupCall n) emails)) n)
    with (Some a) by (rewrite Hrun; symmetry; exact Hfind).
  replace (Spec.hasSignup (run sch db (map (SignupCall n) emails)) (id a) e')
    with false.
  - replace (Spec.atCapacity (run sch db (map (SignupCall n) emails)) a)
      with true; [reflexivity|].
    symmetry. apply atCapacity_true. exists m. rewrite Hcount.
    split; [exact Hm | split; [exact Ht | lia]].
  - symmetry. apply hasSignup_not_In. rewrite Hrun. simpl. intros Hin.
    apply in_app_or in Hin. destruct Hin as [Hin|Hin]; [tauto|].
    apply in_map_iff in Hin. destruct Hin as [x [Heq Hx]].
    inversion Heq; subst. tauto.
Qed.

Lemma fill_to_capacity_witness :
  Spec.countSignups
    (run strict (tutoring (Some 3))
       (map (SignupCall "Tutoring")
            ["bob@mergington.edu"; "carl@mergington.edu"])) 1 = 3
  /\ signup_for_activity strict
       (run strict (tutoring (Some 3))
          (map (SignupCall "Tutoring")
               ["bob@mergington.edu"; "carl@mergington.edu"]))
       "Tutoring" "dora@mergington.edu"
     = (Raise CapacityExceeded,
        run strict (tutoring (Some 3))
          (map (SignupCall "Tutoring")
               ["bob@mergington.edu"; "carl@mergington.edu"])).
Proof.
  destruct (fill_to_capacity strict (tutoring (Some 3)) "Tutoring"
              (mkActivity 1 "Tutoring" "Peer tutoring" "Mondays, 3:30 PM"
                          (Some 3)) 3
              ["bob@mergington.edu"; "carl@mergington.edu"])
    as [_ [_ [Hcount Hfull]]].
  - reflexivity.
  - reflexivity.
  - reflexivity.
  - distinct_entries.
  - simpl. intros e [<-|[<-|[]]] [H|[]]; discriminate H.
  - reflexivity.
  - split; [exact Hcount|]. apply Hfull.
    + simpl. intros [H|[H|[]]]; discriminate H.
    + simpl. intros [H|[]]. discriminate H.
Defined.

(** X11. A negative [max_participants] is true as a condition and is never
    above the count, so it closes the activity: no signup for it returns,
    an enrolled email getting "Student is already signed up" and any other
    "Activity is full", and the store is left as it was. *)
Theorem negative_capacity_closes (sch : Schema) (db : Store) (n e : string)
    (a : Activity) (m : Z) :
  Spec.findActivity db n = Some a ->
  max_participants a = Some m ->
  m < 0 ->
  signup_for_activity sch db n e =
  (Raise (HTTPException 400
            (if Spec.hasSignup db (id a) e
             then "Student is already signed up"
             else "Activity is full")), db).
Proof.
  intros Hfind Hm Hneg. rewrite signup_unfold. unfold Spec.signup.
  rewrite Hfind. destruct (Spec.hasSignup db (id a) e); [reflexivity|].
  replace (Spec.atCapacity db a) with true; [reflexivity|].
  symmetry. apply atCapacity_true. exists m. split; [exact Hm|]. split.
  - unfold Py.truthy. apply negb_true_iff, Z.eqb_neq. lia.
  - unfold Spec.countSignups. lia.
Qed.

Lemma negative_capacity_closes_witness :
  signup_for_activity strict (mkStore (activities (tutoring (Some (-1)))) [])
    "Tutoring" "bob@mergington.edu"
  = (Raise CapacityExceeded,
     mkStore (activities (tutoring (Some (-1)))) []).
Proof.
  apply (negative_capacity_closes strict
           (mkStore (activities (tutoring (Some (-1)))) [])
           "Tutoring" "bob@mergington.edu"
           (mkActivity 1 "Tutoring" "Peer tutoring" "Mondays, 3:30 PM"
                       (Some (-1))) (-1)).
  - reflexivity.
  - reflexivity.
  - reflexivity.
Defined.

(** ** Repeating and undoing a request *)

(** X12. Sending a request twice does what sending it once does.  The
    second of two identical signups always raises and leaves the store of
    the first; in a store where no pair occurs twice the same holds of two
    identical unregisters. *)
Theorem retry_changes_nothing (sch : Schema) (db : Store) (n e : string) :
  (returned
     (fst (signup_for_activity sch
             (snd (signup_for_activity sch db n e)) n e)) = false
   /\ snd (signup_for_activity sch
             (snd (signup_for_activity sch db n e)) n e)
      = snd (signup_for_activity sch db n e))
  /\ (pairs_unique db ->
      returned
        (fst (unregister_from_activity
                (snd (unregister_from_activity db n e)) n e)) = false
      /\ snd (unregister_from_activity
                (snd (unregister_from_activity db n e)) n e)
         = snd (unregister_from_activity db n e)).
Proof.
  split.
  - rewrite (signup_unfold sch db). unfold Spec.signup.
    destruct (Spec.findActivity db n) as [a|] eqn:Hfind;
      [destruct (Spec.hasSignup db (id a) e) eqn:Hhas;
       [|destruct (Spec.atCapacity db a) eqn:Hfull]|];
      cbn [snd]; rewrite signup_unfold; unfold Spec.signup.
    + rewrite Hfind, Hhas. auto.
    + rewrite Hfind, Hhas, Hfull. auto.
    + change (Spec.findActivity (Spec.addSignup db (id a) e) n)
        with (Spec.findActivity db n).
      rewrite Hfind.
      replace (Spec.hasSignup (Spec.addSignup db (id a) e) (id a) e)
        with true; [auto|].
      symmetry. apply hasSignup_In. simpl. apply in_or_app.
      right. left. reflexivity.
    + rewrite Hfind. auto.
  - intros Hnd. rewrite (unregister_unfold db). unfold Spec.unregister.
    destruct (Spec.findActivity db n) as [a|] eqn:Hfind;
      [destruct (Spec.hasSignup db (id a) e) eqn:Hhas|];
      cbn [snd]; rewrite unregister_unfold; unfold Spec.unregister.
    + change (Spec.findActivity (Spec.removeSignup db (id a) e) n)
        with (Spec.findActivity db n).
      rewrite Hfind.
      replace (Spec.hasSignup (Spec.removeSignup db (id a) e) (id a) e)
        with false; [auto|].
      symmetry. apply hasSignup_not_In. simpl.
      apply delete_first_gone, Hnd.
    + rewrite Hfind, Hhas. auto.
    + rewrite Hfind. auto.
Qed.

Lemma retry_changes_nothing_witness :
  snd (unregister_from_activity
         (snd (unregister_from_activity (tutoring (Some 1)) "Tutoring"
                 "ana@mergington.edu"))
         "Tutoring" "ana@mergington.edu")
  = snd (unregister_from_activity (tutoring (Some 1)) "Tutoring"
           "ana@mergington.edu").
Proof.
  refine (proj2 (proj2 (retry_changes_nothing strict (tutoring (Some 1))
                          "Tutoring" "ana@mergington.edu") _)).
  unfold pairs_unique. distinct_entries.
Defined.

(** X13. Unregister then signup.  In a store where no pair occurs twice and
    no activity is above its capacity, a signup that follows a successful
    unregister of the same name and email succeeds; the activities and
    every signup count are those before the unregister, and the signups
    table holds the same rows, the student's now being the last. *)
Theorem unregister_then_signup (sch : Schema) (db db1 : Store)
    (n e msg : string) :
  pairs_unique db ->
  within_capacity db ->
  unregister_from_activity db n e = (Return msg, db1) ->
  fst (signup_for_activity sch db1 n e)
  = Return ("Signed up " ++ e ++ " for " ++ n)
  /\ activities (snd (signup_for_activity sch db1 n e)) = activities db
  /\ (forall k,
        Spec.countSignups (snd (signup_for_activity sch db1 n e)) k
        = Spec.countSignups db k)
  /\ Permutation (signups (snd (signup_for_activity sch db1 n e)))
                 (signups db)
  /\ exists aid,
       signups (snd (signup_for_activity sch db1 n e))
       = (delete_first (same_pair aid e) (signups db)
          ++ [mkSignup aid e])%list.
Proof.
  intros Hnd Hcap Hun. rewrite unregister_unfold in Hun.
  unfold Spec.unregister in Hun.
  destruct (Spec.findActivity db n) as [a|] eqn:Hfind; [|discriminate].
  destruct (Spec.hasSignup db (id a) e) eqn:Hhas; [|discriminate].
  inversion Hun; subst; clear Hun.
  assert (Hex : existsb (same_pair (id a) e) (roster db (id a)) = true)
    by (unfold roster; rewrite existsb_roster; exact Hhas).
  pose proof (delete_first_length _ _ Hex) as Hlen.
  assert (Hcount1 : Spec.countSignups (Spec.removeSignup db (id a) e) (id a)
                    = Spec.countSignups db (id a) - 1).
  { rewrite !roster_count, roster_after_delete, Z.eqb_refl. lia. }
  rewrite signup_unfold. unfold Spec.signup.
  change (Spec.findActivity (Spec.removeSignup db (id a) e) n)
    with (Spec.findActivity db n).
  rewrite Hfind.
  replace (Spec.hasSignup (Spec.removeSignup db (id a) e) (id a) e)
    with false
    by (symmetry; apply hasSignup_not_In; simpl;
        apply delete_first_gone, Hnd).
  replace (Spec.atCapacity (Spec.removeSignup db (id a) e) a) with false.
  - cbn [fst snd]. split; [reflexivity|]. split; [reflexivity|].
    split; [|split].
    + intros k. rewrite count_after_insert.
      rewrite !roster_count, roster_after_delete.
      destruct (id a =? k) eqn:E; [|lia].
      apply Z.eqb_eq in E. subst k. lia.
    + simpl. apply Permutation_sym.
      eapply perm_trans; [|apply Permutation_cons_append].
      apply delete_first_permutation.
      unfold Spec.hasSignup in Hhas.
      destruct (find (same_pair (id a) e) (signups db)) as [s|] eqn:F.
      * apply find_some in F. destruct F as [_ F].
        apply same_pair_iff in F. subst s. reflexivity.
      * apply find_none_existsb in F. congruence.
    + exists (id a). reflexivity.
  - symmetry. unfold Spec.atCapacity.
    destruct (max_participants a) as [m|] eqn:Hm; [|reflexivity].
    destruct (Py.truthy (Some m)) eqn:Ht; [|reflexivity].
    apply findActivity_In in Hfind. destruct Hfind as [Ha _].
    specialize (Hcap a m Ha Hm Ht).
    rewrite Z.geb_leb. simpl. apply Z.leb_gt. lia.
Qed.

Lemma unregister_then_signup_witness :
  fst (signup_for_activity strict
         (snd (unregister_from_activity seeded "Chess Club"
                 "michael@mergington.edu"))
         "Chess Club" "michael@mergington.edu")
  = Return "Signed up michael@mergington.edu for Chess Club"
  /\ map Db.email
       (roster
          (snd (signup_for_activity strict
                  (snd (unregister_from_activity seeded "Chess Club"
                          "michael@mergington.edu"))
                  "Chess Club" "michael@mergington.edu")) 1)
     = ["daniel@mergington.edu"; "michael@mergington.edu"].
Proof.
  destruct (unregister_then_signup strict seeded
              (snd (unregister_from_activity seeded "Chess Club"
                      "michael@mergington.edu"))
              "Chess Club" "michael@mergington.edu"
              "Unregistered michael@mergington.edu from Chess Club"
              seeded_pairs_unique seeded_within_capacity eq_refl)
    as [Hret _].
  split; [exact Hret | reflexivity].
Defined.

(** ** Calls on different activities *)

Lemma findActivity_ext (db db' : Store) (n : string) :
  activities db = activities db' ->
  Spec.findActivity db n = Spec.findActivity db' n.
Proof. unfold Spec.findActivity. intros ->. reflexivity. Qed.

Lemma hasSignup_roster (db : Store) (aid : Z) (e : string) :
  Spec.hasSignup db aid e = existsb (same_pair aid e) (roster db aid).
Proof. unfold Spec.hasSignup, roster. symmetry. apply existsb_roster. Qed.

Lemma atCapacity_roster (db db' : Store) (a : Activity) :
  roster db (id a) = roster db' (id a) ->
  Spec.atCapacity db a = Spec.atCapacity db' a.
Proof.
  intros H. unfold Spec.atCapacity. rewrite !roster_count, H. reflexivity.
Qed.

(** What a call answers, and the roster it leaves to the activity it
    resolved, depend on the activities table and on that roster alone. *)
Lemma call_local (sch : Schema) (db db' : Store) (c : Call) :
  activities db = activities db' ->
  (forall a, Spec.findActivity db (target c) = Some a ->
             roster db (id a) = roster db' (id a)) ->
  fst (call sch db c) = fst (call sch db' c)
  /\ (forall a, Spec.findActivity db (target c) = Some a ->
                roster (snd (call sch db c)) (id a)
                = roster (snd (call sch db' c)) (id a)).
Proof.
  intros Hacts Hros. destruct c as [n e|n e]; cbn [call target] in *.
  - rewrite !signup_unfold. unfold Spec.signup.
    rewrite <- (findActivity_ext db db' n Hacts).
    destruct (Spec.findActivity db n) as [a|] eqn:Hfind;
      [|split; [reflexivity | discriminate]].
    specialize (Hros a eq_refl).
    rewrite !hasSignup_roster, <- Hros, <- (atCapacity_roster db db' a Hros).
    destruct (existsb (same_pair (id a) e) (roster db (id a)));
      [split; [reflexivity | intros b Hb; inversion Hb; subst; exact Hros]|].
    destruct (Spec.atCapacity db a);
      [split; [reflexivity | intros b Hb; inversion Hb; subst; exact Hros]|].
    split; [reflexivity|]. intros b Hb. inversion Hb; subst. cbn [snd].
    rewrite !roster_after_insert, Hros. reflexivity.
  - rewrite !unregister_unfold. unfold Spec.unregister.
    rewrite <- (findActivity_ext db db' n Hacts).
    destruct (Spec.findActivity db n) as [a|] eqn:Hfind;
      [|split; [reflexivity | discriminate]].
    specialize (Hros a eq_refl).
    rewrite !hasSignup_roster, <- Hros.
    destruct (existsb (same_pair (id a) e) (roster db (id a)));
      [|split; [reflexivity | intros b Hb; inversion Hb; subst; exact Hros]].
    split; [reflexivity|]. intros b Hb. inversion Hb; subst. cbn [snd].
    rewrite !roster_after_delete, Hros. reflexivity.
Qed.

(** A call leaves the roster of every activity it did not resolve. *)
Lemma call_frame (sch : Schema) (db : Store) (c : Call) (k : Z) :
  (forall a, Spec.findActivity db (target c) = Some a -> id a <> k) ->
  roster (snd (call sch db c)) k = roster db k.
Proof.
  intros Hother. destruct c as [n e|n e]; cbn [call target] in *.
  - signup_cases db n e; try reflexivity. cbn [snd].
    rewrite roster_after_insert.
    destruct (id a =? k) eqn:E; [|apply app_nil_r].
    apply Z.eqb_eq in E. elim (Hother a eq_refl E).
  - unregister_cases db n e; try reflexivity. cbn [snd].
    rewrite roster_after_delete.
    destruct (id a =? k) eqn:E; [|reflexivity].
    apply Z.eqb_eq in E. elim (Hother a eq_refl E).
Qed.

Lemma resolves_or_not (db : Store) (c : Call) (k : Z) :
  (exists a, Spec.findActivity db (target c) = Some a /\ id a = k)
  \/ (forall a, Spec.findActivity db (target c) = Some a -> id a <> k).
Proof.
  case_eq (Spec.findActivity db (target c)).
  - intros a Ha. destruct (Z.eq_dec (id a) k) as [Hk|Hk].
    + left. exists a. auto.
    + right. intros b Hb. inversion Hb; subst. exact Hk.
  - intros _. right. intros a Ha. discriminate Ha.
Qed.

Lemma fold_setitem_ext {V : Type} (f g : Activity -> V)
    (acts : list Activity) :
  (forall a, f a = g a) ->
  forall acc : Py.dict V,
    fold_left (fun result a => Py.setitem result (name a) (f a)) acts acc
    = fold_left (fun result a => Py.setitem result (name a) (g a)) acts acc.
Proof.
  intros Hfg. induction acts as [|a acts IH]; intros acc; cbn [fold_left];
    [reflexivity|].
  rewrite Hfg. apply IH.
Qed.

Lemma listed_ext (db db' : Store) :
  activities db = activities db' ->
  (forall k, roster db k = roster db' k) ->
  listed db = listed db'.
Proof.
  intros Hacts Hros. unfold listed, get_activities, Db.all; simpl.
  rewrite Hacts. apply fold_setitem_ext. intros a.
  unfold info_of, signups_of.
  change (filter (same_activity (id a)) (signups db))
    with (roster db (id a)).
  rewrite Hros. reflexivity.
Qed.

(** X14. Two calls whose names do not resolve to the same activity commute:
    in either order each gets the answer it gets alone on the store, and
    the two final stores have the same activities, the same rosters and the
    same listing. *)
Theorem calls_on_different_activities_commute (sch : Schema) (db : Store)
    (c1 c2 : Call) :
  (forall a1 a2,
      Spec.findActivity db (target c1) = Some a1 ->
      Spec.findActivity db (target c2) = Some a2 ->
      id a1 <> id a2) ->
  fst (exec sch db [c1; c2]) = [fst (call sch db c1); fst (call sch db c2)]
  /\ fst (exec sch db [c2; c1]) = [fst (call sch db c2); fst (call sch db c1)]
  /\ (forall k, roster (run sch db [c1; c2]) k = roster (run sch db [c2; c1]) k)
  /\ listed (run sch db [c1; c2]) = listed (run sch db [c2; c1]).
Proof.
  intros Hdiff.
  pose proof (call_activities sch db c1) as Hacts1.
  pose proof (call_activities sch db c2) as Hacts2.
  assert (Hf12 : forall a, Spec.findActivity (snd (call sch db c1)) (target c2)
                           = Some a ->
                           roster (snd (call sch db c1)) (id a)
                           = roster db (id a)).
  { intros a Ha. rewrite (findActivity_ext _ db _ Hacts1) in Ha.
    apply call_frame. intros a1 Ha1. exact (Hdiff a1 a Ha1 Ha). }
  assert (Hf21 : forall a, Spec.findActivity (snd (call sch db c2)) (target c1)
                           = Some a ->
                           roster (snd (call sch db c2)) (id a)
                           = roster db (id a)).
  { intros a Ha. rewrite (findActivity_ext _ db _ Hacts2) in Ha.
    apply call_frame. intros a2 Ha2 Heq.
    exact (Hdiff a a2 Ha Ha2 (eq_sym Heq)). }
  destruct (call_local sch (snd (call sch db c1)) db c2 Hacts1 Hf12)
    as [Hr2 Hl2].
  destruct (call_local sch (snd (call sch db c2)) db c1 Hacts2 Hf21)
    as [Hr1 Hl1].
  assert (Hros : forall k, roster (run sch db [c1; c2]) k
                           = roster (run sch db [c2; c1]) k).
  { intros k. rewrite !run_cons. unfold run; cbn [exec snd].
    destruct (resolves_or_not db c1 k) as [[a1 [H1 <-]]|Hn1].
    - rewrite (Hl1 a1)
        by (rewrite (findActivity_ext _ db _ Hacts2); exact H1).
      apply call_frame. intros a2 Ha2 Heq.
      rewrite (findActivity_ext _ db _ Hacts1) in Ha2.
      exact (Hdiff a1 a2 H1 Ha2 (eq_sym Heq)).
    - rewrite (call_frame sch (snd (call sch db c2)) c1 k)
        by (intros a Ha; rewrite (findActivity_ext _ db _ Hacts2) in Ha;
            exact (Hn1 a Ha)).
      destruct (resolves_or_not db c2 k) as [[a2 [H2 <-]]|Hn2].
      + apply (Hl2 a2). rewrite (findActivity_ext _ db _ Hacts1). exact H2.
      + rewrite (call_frame sch (snd (call sch db c1)) c2 k)
          by (intros a Ha; rewrite (findActivity_ext _ db _ Hacts1) in Ha;
              exact (Hn2 a Ha)).
        rewrite (call_frame sch db c1 k Hn1), (call_frame sch db c2 k Hn2).
        reflexivity. }
  split; [rewrite !exec_cons, Hr2; reflexivity|].
  split; [rewrite !exec_cons, Hr1; reflexivity|].
  split; [exact Hros|].
  apply listed_ext; [|exact Hros].
  rewrite !run_activities. reflexivity.
Qed.

Lemma calls_on_different_activities_commute_witness :
  listed (run strict seeded
            [SignupCall "Chess Club" "x@y.edu";
             UnregisterCall "Gym Class" "john@mergington.edu"])
  = listed (run strict seeded
              [UnregisterCall "Gym Class" "john@mergington.edu";
               SignupCall "Chess Club" "x@y.edu"]).
Proof.
  apply (calls_on_different_activities_commute strict seeded
           (SignupCall "Chess Club" "x@y.edu")
           (UnregisterCall "Gym Class" "john@mergington.edu")).
  intros a1 a2 H1 H2. vm_compute in H1, H2.
  inversion H1; inversion H2; subst. discriminate.
Defined.
